(** * The ConfigMap controller of the Windows machine config operator

    A shallow embedding of [controllers/configmap_controller.go]: the parser
    of the [windows-instances] ConfigMap, the address validation, the
    reconciliation of the hosts it lists against the cluster's nodes, the
    event predicates and the bootstrap of the ConfigMap.

    Calls that leave the controller (the cluster API, DNS, the signer, the
    instance reconciler, the event recorder, Prometheus) are members of a
    type class over an abstract world; every call is logged, with its
    result, in the state the code runs in. *)

From Stdlib Require Import String Ascii List Arith NArith Lia Bool.
From stdpp Require Import base option list gmap strings.
Import ListNotations.

Local Open Scope string_scope.
Local Open Scope list_scope.
Local Open Scope nat_scope.

(** ** Go values: errors *)

Module errors.

(** The error values the controller builds or receives: [errors.New] and
    [errors.Errorf] (github.com/pkg/errors), [errors.Wrap] and
    [errors.Wrapf], and the status errors of the cluster API with their
    reason. *)
Inductive error : Type :=
| New (msg : string)
| Wrap (cause : error) (msg : string)
| StatusError (reason : string) (msg : string).

Definition Errorf (msg : string) : error := New msg.
Definition Wrapf (cause : error) (msg : string) : error := Wrap cause msg.

(** [err.Error()] *)
Fixpoint Error (e : error) : string :=
  match e with
  | New msg => msg
  | Wrap cause msg => msg +:+ ": " +:+ Error cause
  | StatusError _ msg => msg
  end.

Definition StatusReasonNotFound : string := "NotFound".

(** [k8sapierrors.IsNotFound]: the reason of a status error is NotFound. *)
Definition IsNotFound (e : error) : bool :=
  match e with
  | StatusError reason _ => bool_decide (reason = StatusReasonNotFound)
  | _ => false
  end.

End errors.
Export errors.

#[global] Instance error_eq_dec : EqDecision error.
Proof. solve_decision. Defined.

(** ** Go's [strings] package, as far as the controller calls it *)

Module strings.

Fixpoint HasPrefix (s prefix : string) {struct prefix} : bool :=
  match prefix, s with
  | EmptyString, _ => true
  | String c p, String d t => bool_decide (c = d) && HasPrefix t p
  | String _ _, EmptyString => false
  end.

(** [strings.Index]: where [substr] first occurs in [s]; [None] is Go's -1. *)
Fixpoint Index (s substr : string) : option nat :=
  if HasPrefix s substr then Some 0
  else match s with
       | EmptyString => None
       | String _ t => S <$> Index t substr
       end.

(** [s[:n]] and [s[n:]] *)
Fixpoint slice_to (n : nat) (s : string) : string :=
  match n, s with
  | S n', String c t => String c (slice_to n' t)
  | _, _ => EmptyString
  end.

Fixpoint slice_from (n : nat) (s : string) : string :=
  match n, s with
  | S n', String _ t => slice_from n' t
  | _, _ => s
  end.

(** The loop of [genSplit] with [sepSave = 0]: [n] pieces are still
    allowed, the last one takes the rest of the string. *)
Fixpoint genSplit (s sep : string) (n : nat) : list string :=
  match n with
  | 0 => []
  | 1 => [s]
  | S n' =>
      match Index s sep with
      | None => [s]
      | Some m => slice_to m s :: genSplit (slice_from (m + String.length sep) s) sep n'
      end
  end.

(** [strings.SplitN(s, sep, n)] for a count [n >= 0] and a separator that is
    not empty (the controller splits at "="); the count is capped at
    [len(s)+1] as in Go. *)
Definition SplitN (s sep : string) (n : nat) : list string :=
  genSplit s sep (Nat.min n (String.length s + 1)).

(** [strings.Count(s, substr)] for a separator of one byte, which Go counts
    byte by byte. *)
Fixpoint CountByte (s : string) (c : ascii) : nat :=
  match s with
  | EmptyString => 0
  | String d t => (if bool_decide (c = d) then 1 else 0) + CountByte t c
  end.

End strings.

(** ** Go's [net] package: textual IP addresses

    [net.ParseIP] and [IP.To4] belong to Go's standard library, not to the
    operator. The controller's functions below take them from the
    environment; this module writes out the library's parser (as of the Go
    releases the operator was built with, 1.15 and 1.16) so that the
    controller can be run on address literals. An [IP] is a list of bytes,
    [None] is Go's nil. *)

Module net.

Definition IPv4len : nat := 4.
Definition IPv6len : nat := 16.

Definition byte_at (s : string) (i : nat) : option N :=
  N_of_ascii <$> String.get i s.

Definition is_byte (s : string) (i : nat) (c : ascii) : bool :=
  bool_decide (String.get i s = Some c).

Definition big : N := 16777215.

(** [dtoi]: a decimal number at the start of [s]; the value, the number of
    bytes read and whether it is a number. *)
Fixpoint dtoi_from (s : string) (n : N) (i : nat) : N * nat * bool :=
  match s with
  | String c t =>
      let b := N_of_ascii c in
      if (48 <=? b)%N && (b <=? 57)%N then
        let n' := (n * 10 + (b - 48))%N in
        if (big <=? n')%N then (big, i, false) else dtoi_from t n' (S i)
      else if i =? 0 then (0%N, 0, false) else (n, i, true)
  | EmptyString => if i =? 0 then (0%N, 0, false) else (n, i, true)
  end.

Definition dtoi (s : string) : N * nat * bool := dtoi_from s 0%N 0.

(** [xtoi]: the same for a hexadecimal number. *)
Definition hex_digit (b : N) : option N :=
  if (48 <=? b)%N && (b <=? 57)%N then Some (b - 48)%N
  else if (97 <=? b)%N && (b <=? 102)%N then Some (b - 97 + 10)%N
  else if (65 <=? b)%N && (b <=? 70)%N then Some (b - 65 + 10)%N
  else None.

Fixpoint xtoi_from (s : string) (n : N) (i : nat) : N * nat * bool :=
  match s with
  | String c t =>
      match hex_digit (N_of_ascii c) with
      | Some d =>
          let n' := (n * 16 + d)%N in
          if (big <=? n')%N then (0%N, i, false) else xtoi_from t n' (S i)
      | None => if i =? 0 then (0%N, i, false) else (n, i, true)
      end
  | EmptyString => if i =? 0 then (0%N, i, false) else (n, i, true)
  end.

Definition xtoi (s : string) : N * nat * bool := xtoi_from s 0%N 0.

Definition v4InV6Prefix : list N := [0; 0; 0; 0; 0; 0; 0; 0; 0; 0; 255; 255]%N.

(** [net.IPv4(a, b, c, d)]: the 16-byte form of an IPv4 address. *)
Definition IPv4 (p : list N) : list N := v4InV6Prefix ++ p.

(** The loop of [parseIPv4]: [k] octets are still to be read, [p] holds the
    ones read. *)
Fixpoint parseIPv4_octets (k : nat) (s : string) (p : list N) : option (list N) :=
  match k with
  | 0 => if String.length s =? 0 then Some (IPv4 p) else None
  | S k' =>
      if String.length s =? 0 then None
      else
        let after_dot :=
          if length p =? 0 then Some s
          else if is_byte s 0 "." then Some (strings.slice_from 1 s) else None in
        match after_dot with
        | None => None
        | Some s1 =>
            let '(n, c, ok) := dtoi s1 in
            if negb ok || (255 <? n)%N then None
            else parseIPv4_octets k' (strings.slice_from c s1) (p ++ [n])
        end
  end.

Definition parseIPv4 (s : string) : option (list N) :=
  parseIPv4_octets IPv4len s [].

(** The loop of [parseIPv6]: hexadecimal groups separated by colons, with at
    most one [::] and possibly a trailing IPv4 address. [ip] holds the bytes
    written so far (Go's index [i] is its length), [ellipsis] the position
    of the [::]. The result is the state in which the loop is left; [None]
    stands for [return nil]. Every round that goes on writes two bytes, so
    eight rounds are enough. *)
Fixpoint parseIPv6_groups (rounds : nat) (s : string) (ip : list N)
    (ellipsis : option nat) : option (string * list N * option nat) :=
  let i := length ip in
  if negb (i <? IPv6len) then Some (s, ip, ellipsis)
  else
    match rounds with
    | 0 => None
    | S rounds' =>
        let '(n, c, ok) := xtoi s in
        if negb ok || (65535 <? n)%N then None
        else if (c <? String.length s) && is_byte s c "." then
          if bool_decide (ellipsis = None) && negb (i =? IPv6len - IPv4len) then None
          else if IPv6len <? i + IPv4len then None
          else
            match parseIPv4 s with
            | None => None
            | Some ip4 => Some (EmptyString, ip ++ drop 12 ip4, ellipsis)
            end
        else
          let ip := ip ++ [N.shiftr n 8; N.land n 255] in
          let s := strings.slice_from c s in
          if String.length s =? 0 then Some (s, ip, ellipsis)
          else if negb (is_byte s 0 ":") || (String.length s =? 1) then None
          else
            let s := strings.slice_from 1 s in
            if is_byte s 0 ":" then
              match ellipsis with
              | Some _ => None
              | None =>
                  let s := strings.slice_from 1 s in
                  if String.length s =? 0 then Some (s, ip, Some (length ip))
                  else parseIPv6_groups rounds' s ip (Some (length ip))
              end
            else parseIPv6_groups rounds' s ip ellipsis
    end.

Definition parseIPv6 (s : string) : option (list N) :=
  let lead := (2 <=? String.length s) && is_byte s 0 ":" && is_byte s 1 ":" in
  let s := if lead then strings.slice_from 2 s else s in
  let ellipsis := if lead then Some 0 else None in
  if lead && (String.length s =? 0) then Some (replicate IPv6len 0%N)
  else
    match parseIPv6_groups 8 s [] ellipsis with
    | None => None
    | Some (s, ip, ellipsis) =>
        if negb (String.length s =? 0) then None
        else if length ip <? IPv6len then
          match ellipsis with
          | None => None
          | Some e => Some (take e ip ++ replicate (IPv6len - length ip) 0%N ++ drop e ip)
          end
        else
          match ellipsis with
          | Some _ => None
          | None => Some ip
          end
    end.

(** [net.ParseIP]: the first dot or colon of [s] decides which parser reads
    the whole of [s]. *)
Fixpoint ParseIP_scan (whole rest : string) : option (list N) :=
  match rest with
  | EmptyString => None
  | String c t =>
      if bool_decide (c = "."%char) then parseIPv4 whole
      else if bool_decide (c = ":"%char) then parseIPv6 whole
      else ParseIP_scan whole t
  end.

Definition ParseIP (s : string) : option (list N) := ParseIP_scan s s.

Definition isZeros (p : list N) : bool := forallb (fun b => (b =? 0)%N) p.

(** [ip.To4()]: the 4-byte form of an IPv4 address, also when it is stored
    in 16 bytes; [None] for any other address. *)
Definition To4 (ip : list N) : option (list N) :=
  if length ip =? IPv4len then Some ip
  else if (length ip =? IPv6len) && isZeros (take 10 ip)
          && bool_decide (ip !! 10 = Some 255%N) && bool_decide (ip !! 11 = Some 255%N)
  then Some (drop 12 ip)
  else None.

End net.

(** ** Kubernetes objects and the operator's own types *)

Module meta.
Record ObjectMeta : Type := {
  Namespace : string;
  Name : string;
  Annotations : gmap string string;
}.
Definition empty : ObjectMeta :=
  {| Namespace := ""; Name := ""; Annotations := ∅ |}.
End meta.

Module kubeTypes.
Record NamespacedName : Type := { Namespace : string; Name : string }.
End kubeTypes.

Module core.
Record NodeAddress : Type := { Type_ : string; Address : string }.
Record NodeStatus : Type := { Addresses : list NodeAddress }.
Record Node : Type := { NodeMeta : meta.ObjectMeta; Status : NodeStatus }.
Record NodeList : Type := { Items : list Node }.
Record ConfigMap : Type := { ConfigMapMeta : meta.ObjectMeta; Data : gmap string string }.

(** [&core.ConfigMap{}] and [&core.NodeList{}] *)
Definition emptyConfigMap : ConfigMap := {| ConfigMapMeta := meta.empty; Data := ∅ |}.
Definition emptyNodeList : NodeList := {| Items := [] |}.

Definition EventTypeWarning : string := "Warning".
End core.

(** What the controller uses of a [client.Object]: its metadata. *)
Module client.
Definition Object : Type := meta.ObjectMeta.
Definition GetNamespace (o : Object) : string := meta.Namespace o.
Definition GetName (o : Object) : string := meta.Name o.
Definition GetAnnotations (o : Object) : gmap string string := meta.Annotations o.
Definition SetNamespace (o : Object) (ns : string) : Object :=
  {| meta.Namespace := ns; meta.Name := meta.Name o; meta.Annotations := meta.Annotations o |}.
Definition SetName (o : Object) (name : string) : Object :=
  {| meta.Namespace := meta.Namespace o; meta.Name := name; meta.Annotations := meta.Annotations o |}.
End client.

Module reconcile.
Record Request : Type := { NamespacedName : kubeTypes.NamespacedName }.
End reconcile.

Module event.
Record CreateEvent : Type := { CreateObject : client.Object }.
Record UpdateEvent : Type := { ObjectOld : client.Object; ObjectNew : client.Object }.
Record DeleteEvent : Type := { DeleteObject : client.Object; DeleteStateUnknown : bool }.
Record GenericEvent : Type := { GenericObject : client.Object }.
End event.

(** [predicate.Funcs] of controller-runtime: a function that is not set
    lets every event through. *)
Module predicate.
Record Funcs : Type := {
  CreateFunc : option (event.CreateEvent -> bool);
  DeleteFunc : option (event.DeleteEvent -> bool);
  UpdateFunc : option (event.UpdateEvent -> bool);
  GenericFunc : option (event.GenericEvent -> bool);
}.
Definition Create (p : Funcs) (e : event.CreateEvent) : bool :=
  match CreateFunc p with Some f => f e | None => true end.
Definition Delete (p : Funcs) (e : event.DeleteEvent) : bool :=
  match DeleteFunc p with Some f => f e | None => true end.
Definition Update (p : Funcs) (e : event.UpdateEvent) : bool :=
  match UpdateFunc p with Some f => f e | None => true end.
Definition Generic (p : Funcs) (e : event.GenericEvent) : bool :=
  match GenericFunc p with Some f => f e | None => true end.
End predicate.

Module instances.
(** Modelled from the spec: the declaration of [instances.InstanceInfo] and
    of its constructor [NewInstanceInfo] is in a package that is not part of
    the sources at hand. The controller reads [Address] and [Username] and
    passes the empty string for the third component. *)
Record InstanceInfo : Type := {
  Address : string;
  Username : string;
  Credential : string;
}.
Definition NewInstanceInfo (address username credential : string) : InstanceInfo :=
  {| Address := address; Username := username; Credential := credential |}.
End instances.

#[global] Instance ObjectMeta_eq_dec : EqDecision meta.ObjectMeta.
Proof. solve_decision. Defined.
#[global] Instance NamespacedName_eq_dec : EqDecision kubeTypes.NamespacedName.
Proof. solve_decision. Defined.
#[global] Instance NodeAddress_eq_dec : EqDecision core.NodeAddress.
Proof. solve_decision. Defined.
#[global] Instance NodeStatus_eq_dec : EqDecision core.NodeStatus.
Proof. solve_decision. Defined.
#[global] Instance Node_eq_dec : EqDecision core.Node.
Proof. solve_decision. Defined.
#[global] Instance InstanceInfo_eq_dec : EqDecision instances.InstanceInfo.
Proof. solve_decision. Defined.

(** ** The constants of the controller *)

Definition BYOHAnnotation : string := "windowsmachineconfig.openshift.io/byoh".
Definition UsernameAnnotation : string := "windowsmachineconfig.openshift.io/username".
Definition InstanceConfigMap : string := "windows-instances".

(** ** The environment the controller runs in *)

(** Go's [net.ParseIP] and [IP.To4]. *)
Class Net : Type := {
  IP : Type;
  ParseIP : string -> option IP;
  To4 : IP -> option IP;
}.

(** What the controller calls outside of its own file, over a world [W] that
    the calls read and change: DNS, the cached client of the manager, the
    typed client that talks to the API server directly, the signer, the
    instance reconciler it embeds, and Prometheus. [mapRange] is the order
    in which one [range] statement walks a map: Go leaves it open, so it is
    any enumeration of the map's entries. *)
Class Operator (W : Type) : Type := {
  Signer : Type;
  RestConfig : Type;
  VersionAnnotation : string;
  PrivateKeySecret : string;
  windowsNodePredicate : bool -> predicate.Funcs;
  mapRange : gmap string string -> W -> list (string * string);
  mapRange_perm : forall m w, mapRange m w ≡ₚ map_to_list m;
  net_LookupHost : string -> W -> (list string + error) * W;
  client_Get : kubeTypes.NamespacedName -> W -> (core.ConfigMap + error) * W;
  client_Create : core.ConfigMap -> W -> option error * W;
  client_List : W -> (core.NodeList + error) * W;
  kubernetes_NewForConfig : RestConfig -> option error;
  typed_Get : string -> string -> W -> (core.ConfigMap + error) * W;
  typed_Create : string -> core.ConfigMap -> W -> (core.ConfigMap + error) * W;
  signer_Create : kubeTypes.NamespacedName -> W -> (option Signer * option error) * W;
  instanceReconciler_configureInstance :
    option Signer -> instances.InstanceInfo -> gmap string string -> W -> option error * W;
  instanceReconciler_deconfigureInstance :
    option Signer -> core.Node -> W -> option error * W;
  prometheusNodeConfig_Configure : W -> option error * W;
}.

(** One entry of the log of calls, with what the call returned. *)
Inductive Call : Type :=
| CallLookupHost (address : string) (res : list string + error)
| CallGet (key : kubeTypes.NamespacedName) (res : core.ConfigMap + error)
| CallCreate (obj : core.ConfigMap) (res : option error)
| CallList (res : core.NodeList + error)
| CallNewForConfig (res : option error)
| CallTypedGet (namespace name : string) (res : core.ConfigMap + error)
| CallTypedCreate (namespace : string) (obj : core.ConfigMap) (res : core.ConfigMap + error)
| CallSignerCreate (key : kubeTypes.NamespacedName) (res : option error)
| CallConfigureInstance (instance : instances.InstanceInfo)
    (annotations : gmap string string) (res : option error)
| CallDeconfigureInstance (node : core.Node) (res : option error)
| CallEventf (object : core.ConfigMap) (eventtype reason message : string)
| CallPrometheusConfigure (res : option error)
| CallLogInfo (msg key : string) (value : kubeTypes.NamespacedName).

(** A run-time panic of Go. *)
Inductive Panic : Type :=
| IndexOutOfRange (index len : nat)
| NilDereference.

Section Monad.

Context {W : Type} `{O : Operator W}.

(** The state a reconciler runs in: the world, its own [signer] field, and
    the log of the calls made so far. *)
Record State : Type := {
  world : W;
  signer : option Signer;
  calls : list Call;
}.

Inductive Outcome (A : Type) : Type :=
| Done (a : A) (s : State)
| Panicked (p : Panic) (s : State).
#[global] Arguments Done {A} a s.
#[global] Arguments Panicked {A} p s.

Definition final {A} (o : Outcome A) : State :=
  match o with Done _ s => s | Panicked _ s => s end.

Definition M (A : Type) : Type := State -> Outcome A.

Definition ret {A} (a : A) : M A := fun s => Done a s.

Definition bind {A B} (m : M A) (k : A -> M B) : M B :=
  fun s => match m s with
           | Done a s' => k a s'
           | Panicked p s' => Panicked p s'
           end.

Definition panic {A} (p : Panic) : M A := fun s => Panicked p s.

(** A call into the world: run it, keep the new world, log it. *)
Definition invoke {R} (f : W -> R * W) (entry : R -> Call) : M R :=
  fun s =>
    let '(r, w) := f (world s) in
    Done r {| world := w; signer := signer s; calls := calls s ++ [entry r] |}.

(** A call that returns nothing the controller looks at. *)
Definition emit (entry : Call) : M unit :=
  fun s => Done tt {| world := world s; signer := signer s; calls := calls s ++ [entry] |}.

(** [l[i]] of Go: out of range it panics. *)
Definition index {A} (l : list A) (i : nat) : M A :=
  match l !! i with
  | Some a => ret a
  | None => panic (IndexOutOfRange i (length l))
  end.

End Monad.

#[global] Arguments State {W O}.
#[global] Arguments M {W O} A.
#[global] Arguments Outcome {W O} A.

Notation "x <- m ;; k" := (bind m (fun x => k))
  (at level 100, m at next level, right associativity).

(** ** The controller *)

(** The reconciler: of its fields, [watchNamespace] is read by the code
    below; [signer] is written by it and lives in the state; the clients,
    the recorder and the Prometheus configuration are the environment. *)
Record ConfigMapReconciler : Type := {
  watchNamespace : string;
}.

Section Controller.

Context `{N : Net} {W : Type} `{O : Operator W}.

Definition do_LookupHost (address : string) : M (list string + error) :=
  invoke (net_LookupHost address) (CallLookupHost address).

Definition do_Get (key : kubeTypes.NamespacedName) : M (core.ConfigMap + error) :=
  invoke (client_Get key) (CallGet key).

Definition do_Create (obj : core.ConfigMap) : M (option error) :=
  invoke (client_Create obj) (CallCreate obj).

Definition do_List : M (core.NodeList + error) :=
  invoke client_List CallList.

Definition do_TypedGet (namespace name : string) : M (core.ConfigMap + error) :=
  invoke (typed_Get namespace name) (CallTypedGet namespace name).

Definition do_TypedCreate (namespace : string) (obj : core.ConfigMap) :
    M (core.ConfigMap + error) :=
  invoke (typed_Create namespace obj) (CallTypedCreate namespace obj).

Definition do_NewForConfig (cfg : RestConfig) : M (option error) :=
  fun s =>
    let r := kubernetes_NewForConfig cfg in
    Done r {| world := world s; signer := signer s; calls := calls s ++ [CallNewForConfig r] |}.

(** [r.signer, err = signer.Create(...)]: the field is assigned whatever the
    call returns. *)
Definition do_signer_Create (key : kubeTypes.NamespacedName) : M (option error) :=
  fun s =>
    let '(sg, err, w) := signer_Create key (world s) in
    Done err {| world := w; signer := sg; calls := calls s ++ [CallSignerCreate key err] |}.

Definition do_configureInstance (instance : instances.InstanceInfo)
    (annotations : gmap string string) : M (option error) :=
  fun s =>
    invoke (instanceReconciler_configureInstance (signer s) instance annotations)
           (CallConfigureInstance instance annotations) s.

Definition do_deconfigureInstance (node : core.Node) : M (option error) :=
  fun s =>
    invoke (instanceReconciler_deconfigureInstance (signer s) node)
           (CallDeconfigureInstance node) s.

Definition do_prometheus_Configure : M (option error) :=
  invoke prometheusNodeConfig_Configure CallPrometheusConfigure.

(** [validateAddress] checks that the given address is either an ipv4
    address, or resolves to any ip address. *)
Definition validateAddress (address : string) : M (option error) :=
  match ParseIP address with
  | Some parsedAddr =>
      match To4 parsedAddr with
      | Some _ => ret None
      | None => ret (Some (Errorf "ipv6 is not supported"))
      end
  | None =>
      res <- do_LookupHost address ;;
      match res with
      | inr err => ret (Some (Wrapf err "error looking up DNS"))
      | inl addressList =>
          if length addressList =? 0
          then ret (Some (Errorf "DNS did not resolve to an address"))
          else ret None
      end
  end.

(** The body of the [range] loop of [parseHosts], over the entries still to
    come and the hosts collected so far. *)
Fixpoint parseHosts_range (entries : list (string * string))
    (hosts : list instances.InstanceInfo) :
    M (list instances.InstanceInfo * option error) :=
  match entries with
  | [] => ret (hosts, None)
  | (address, data) :: entries' =>
      verr <- validateAddress address ;;
      match verr with
      | Some err => ret ([], Some (Wrapf err ("invalid address " +:+ address)))
      | None =>
          let splitData := strings.SplitN data "=" 2 in
          if length splitData =? 0
          then ret (hosts, Some (Errorf ("data for entry " +:+ address +:+ " has an incorrect format")))
          else
            first <- index splitData 0 ;;
            if negb (String.eqb first "username")
            then ret (hosts, Some (Errorf ("data for entry " +:+ address +:+ " has an incorrect format")))
            else
              username <- index splitData 1 ;;
              parseHosts_range entries' (hosts ++ [instances.NewInstanceInfo address username ""])
      end
  end.

(** [parseHosts] gets the list of hosts specified in the configmap's data. *)
Definition parseHosts (configMapData : gmap string string) :
    M (list instances.InstanceInfo * option error) :=
  fun s => parseHosts_range (mapRange configMapData (world s)) [] s.

Definition hasAddress (address : string) (node : core.Node) : bool :=
  existsb (fun nodeAddress => String.eqb address (core.Address nodeAddress))
          (core.Addresses (core.Status node)).

(** [findNode] returns the node with an address matching the given address,
    if there is one: the first such node of the list. *)
Definition findNode (address : string) (nodes : core.NodeList) : option core.Node :=
  find (hasAddress address) (core.Items nodes).

(** [hasAssociatedInstance] returns true if the given node is associated with
    an instance in the given slice. *)
Definition hasAssociatedInstance (node : core.Node)
    (instances : list instances.InstanceInfo) : bool :=
  existsb (fun instance => hasAddress (instances.Address instance) node) instances.

(** [ensureInstanceIsConfigured] ensures that the given instance has an
    associated Node. *)
Definition ensureInstanceIsConfigured (instance : instances.InstanceInfo)
    (nodes : core.NodeList) : M (option error) :=
  let configure :=
    err <- do_configureInstance instance
             {[ BYOHAnnotation := "true"; UsernameAnnotation := instances.Username instance ]} ;;
    match err with
    | Some err => ret (Some (Wrap err "error configuring node"))
    | None => ret None
    end in
  match findNode (instances.Address instance) nodes with
  | Some node =>
      match meta.Annotations (core.NodeMeta node) !! VersionAnnotation with
      | Some _ => ret None
      | None => configure
      end
  | None => configure
  end.

(** The loop of [deconfigureInstances] over the nodes still to come. *)
Fixpoint deconfigureInstances_range (instances : list instances.InstanceInfo)
    (items : list core.Node) : M (option error) :=
  match items with
  | [] => ret None
  | node :: items' =>
      match meta.Annotations (core.NodeMeta node) !! BYOHAnnotation with
      | None => deconfigureInstances_range instances items'
      | Some _ =>
          if hasAssociatedInstance node instances
          then deconfigureInstances_range instances items'
          else
            err <- do_deconfigureInstance node ;;
            match err with
            | Some err =>
                ret (Some (Wrapf err ("unable to deconfigure instance with node "
                                      +:+ client.GetName (core.NodeMeta node))))
            | None => deconfigureInstances_range instances items'
            end
      end
  end.

(** [deconfigureInstances] removes all BYOH nodes that are not specified in
    the given instances slice, and deconfigures the instances associated
    with them. *)
Definition deconfigureInstances (instances : list instances.InstanceInfo)
    (nodes : core.NodeList) : M (option error) :=
  deconfigureInstances_range instances (core.Items nodes).

(** The loop of [reconcileNodes] over the hosts still to come: [Some] is the
    error the function returns from inside the loop. *)
Fixpoint reconcileNodes_hosts (instances : core.ConfigMap)
    (hosts : list instances.InstanceInfo) (nodes : core.NodeList) : M (option error) :=
  match hosts with
  | [] => ret None
  | host :: hosts' =>
      err <- ensureInstanceIsConfigured host nodes ;;
      match err with
      | Some err =>
          _ <- emit (CallEventf instances core.EventTypeWarning "InstanceSetupFailure"
                       ("unable to join instance with address " +:+ instances.Address host
                        +:+ " to the cluster")) ;;
          ret (Some (Wrapf err ("error configuring host with address "
                                +:+ instances.Address host)))
      | None => reconcileNodes_hosts instances hosts' nodes
      end
  end.

(** [node.GetAnnotations()[BYOHAnnotation] == "true"]; a key that is absent
    reads as the empty string. *)
Definition isBYOH (node : core.Node) : bool :=
  String.eqb (default "" (client.GetAnnotations (core.NodeMeta node) !! BYOHAnnotation)) "true".

(** [reconcileNodes] corrects the discrepancy between the "expected" hosts
    slice, and the "actual" nodelist. *)
Definition reconcileNodes (r : ConfigMapReconciler) (instances : core.ConfigMap) :
    M (option error) :=
  parsed <- parseHosts (core.Data instances) ;;
  let '(hosts, err) := parsed in
  match err with
  | Some err => ret (Some (Wrapf err "unable to parse hosts from configmap"))
  | None =>
      listed <- do_List ;;
      match listed with
      | inr err => ret (Some (Wrap err "error listing nodes"))
      | inl nodes =>
          let byohNodes := List.filter isBYOH (core.Items nodes) in
          if (length hosts =? 0) && (length byohNodes =? 0) then ret None
          else
            err <- do_signer_Create {| kubeTypes.Namespace := watchNamespace r;
                                       kubeTypes.Name := PrivateKeySecret |} ;;
            match err with
            | Some err => ret (Some (Wrapf err "unable to create signer from private key secret"))
            | None =>
                err <- reconcileNodes_hosts instances hosts nodes ;;
                match err with
                | Some err => ret (Some err)
                | None =>
                    err <- deconfigureInstances hosts nodes ;;
                    match err with
                    | Some err => ret (Some (Wrap err "error removing undesired nodes from cluster"))
                    | None =>
                        err <- do_prometheus_Configure ;;
                        match err with
                        | Some err => ret (Some (Wrap err "unable to configure Prometheus"))
                        | None => ret None
                        end
                    end
                end
            end
      end
  end.

(** [mapToConfigMap] fulfills the MapFn type, while always returning a
    request to the windows-instance ConfigMap. *)
Definition mapToConfigMap (r : ConfigMapReconciler) (_ : client.Object) :
    list reconcile.Request :=
  [ {| reconcile.NamespacedName :=
         {| kubeTypes.Namespace := watchNamespace r; kubeTypes.Name := InstanceConfigMap |} |} ].

(** [isValidConfigMap] returns true if the ConfigMap object is the
    InstanceConfigMap. *)
Definition isValidConfigMap (r : ConfigMapReconciler) (o : client.Object) : bool :=
  String.eqb (client.GetNamespace o) (watchNamespace r)
  && String.eqb (client.GetName o) InstanceConfigMap.

(** The predicate [SetupWithManager] builds for ConfigMap events. *)
Definition configMapPredicate (r : ConfigMapReconciler) : predicate.Funcs :=
  {| predicate.CreateFunc := Some (fun e => isValidConfigMap r (event.CreateObject e));
     predicate.UpdateFunc := Some (fun e => isValidConfigMap r (event.ObjectNew e));
     predicate.DeleteFunc :=
       Some (fun e =>
               if event.DeleteStateUnknown e then false
               else isValidConfigMap r (event.DeleteObject e));
     predicate.GenericFunc := None |}.

(** What [SetupWithManager] registers with the manager: the predicate of the
    ConfigMaps the controller is [For], and for the Nodes it [Watches] the
    predicate and the function that maps a Node to requests. *)
Record Registration : Type := {
  ForPredicate : predicate.Funcs;
  WatchesPredicate : predicate.Funcs;
  WatchesMapFunc : client.Object -> list reconcile.Request;
}.

Definition SetupWithManager (r : ConfigMapReconciler) : Registration :=
  {| ForPredicate := configMapPredicate r;
     WatchesPredicate := windowsNodePredicate true;
     WatchesMapFunc := mapToConfigMap r |}.

Definition withIdentity (cm : core.ConfigMap) (namespace name : string) : core.ConfigMap :=
  {| core.ConfigMapMeta := client.SetName (client.SetNamespace (core.ConfigMapMeta cm) namespace) name;
     core.Data := core.Data cm |}.

(** [ensure] returns the InstanceConfigMap if present. If it is not present,
    it creates an empty one and returns it. The result is the pair Go
    returns: the pointer ([None] is nil) and the error. *)
Definition ensure (namespacedName : kubeTypes.NamespacedName) :
    M (option core.ConfigMap * option error) :=
  let windowsInstances := core.emptyConfigMap in
  got <- do_Get namespacedName ;;
  match got with
  | inl found => ret (Some found, None)
  | inr err =>
      if IsNotFound err then
        let windowsInstances :=
          withIdentity windowsInstances (kubeTypes.Namespace namespacedName)
                       (kubeTypes.Name namespacedName) in
        cerr <- do_Create windowsInstances ;;
        match cerr with
        | Some err => ret (None, Some err)
        | None =>
            _ <- emit (CallLogInfo "Created" "ConfigMap" namespacedName) ;;
            again <- do_Get namespacedName ;;
            match again with
            | inr err => ret (None, Some err)
            | inl found => ret (Some found, None)
            end
        end
      else ret (Some windowsInstances, Some err)
  end.

(** [EnsureWindowsInstancesConfigMap] ensures that the InstanceConfigMap is
    present on the cluster during operator bootup, through the typed client,
    which calls the API server directly. A [Get] of the typed client that
    fails returns an empty object next to its error. *)
Definition EnsureWindowsInstancesConfigMap (cfg : option RestConfig) (namespace : string) :
    M (option error) :=
  match cfg with
  | None => ret (Some (New "config should not be nil"))
  | Some cfg =>
      nerr <- do_NewForConfig cfg ;;
      match nerr with
      | Some err => ret (Some (Wrap err "error creating config client"))
      | None =>
          got <- do_TypedGet namespace InstanceConfigMap ;;
          match got with
          | inl _ => ret None
          | inr err =>
              if IsNotFound err then
                let windowsInstances :=
                  withIdentity core.emptyConfigMap namespace InstanceConfigMap in
                created <- do_TypedCreate namespace windowsInstances ;;
                match created with
                | inr err => ret (Some err)
                | inl _ =>
                    _ <- emit (CallLogInfo "Created" "ConfigMap"
                                 {| kubeTypes.Namespace := namespace;
                                    kubeTypes.Name := InstanceConfigMap |}) ;;
                    ret None
                end
              else ret (Some err)
          end
      end
  end.

(** [Reconcile]: fetch the ConfigMap, creating it when it is gone, and
    reconcile the nodes with it. *)
Definition Reconcile (r : ConfigMapReconciler) (req : reconcile.Request) : M (option error) :=
  ensured <- ensure (reconcile.NamespacedName req) ;;
  let '(configMap, err) := ensured in
  match err with
  | Some err => ret (Some err)
  | None =>
      match configMap with
      | Some configMap => reconcileNodes r configMap
      | None => panic NilDereference
      end
  end.

End Controller.

(** ** A small cluster to run the controller on

    Go's own address parser, and a world made of the ConfigMaps and Nodes of
    an API server, a DNS table, the instances that cannot be configured and
    the nodes that cannot be deconfigured. *)

#[global] Instance GoNet : Net :=
  {| IP := list N; ParseIP := net.ParseIP; To4 := net.To4 |}.

Module Sim.

Record World : Type := {
  configMaps : list core.ConfigMap;
  nodes : list core.Node;
  dns : list (string * list string);
  brokenHosts : list string;
  stuckNodes : list string;
}.

Definition versionAnnotation : string := "windowsmachineconfig.openshift.io/version".

Definition hasIdentity (namespace name : string) (cm : core.ConfigMap) : bool :=
  String.eqb (meta.Namespace (core.ConfigMapMeta cm)) namespace
  && String.eqb (meta.Name (core.ConfigMapMeta cm)) name.

Definition notFound (name : string) : error :=
  StatusError StatusReasonNotFound ("configmaps " +:+ name +:+ " not found").

Definition setConfigMaps (w : World) (cms : list core.ConfigMap) : World :=
  {| configMaps := cms; nodes := nodes w; dns := dns w;
     brokenHosts := brokenHosts w; stuckNodes := stuckNodes w |}.

Definition setNodes (w : World) (ns : list core.Node) : World :=
  {| configMaps := configMaps w; nodes := ns; dns := dns w;
     brokenHosts := brokenHosts w; stuckNodes := stuckNodes w |}.

Definition get (namespace name : string) (w : World) : (core.ConfigMap + error) * World :=
  match find (hasIdentity namespace name) (configMaps w) with
  | Some cm => (inl cm, w)
  | None => (inr (notFound name), w)
  end.

Definition create (obj : core.ConfigMap) (w : World) : (core.ConfigMap + error) * World :=
  let namespace := meta.Namespace (core.ConfigMapMeta obj) in
  let name := meta.Name (core.ConfigMapMeta obj) in
  match find (hasIdentity namespace name) (configMaps w) with
  | Some _ => (inr (StatusError "AlreadyExists" ("configmaps " +:+ name +:+ " already exists")), w)
  | None => (inl obj, setConfigMaps w (configMaps w ++ [obj]))
  end.

Definition lookupHost (address : string) (w : World) : (list string + error) * World :=
  match find (fun entry => String.eqb (fst entry) address) (dns w) with
  | Some entry => (inl (snd entry), w)
  | None => (inr (New ("lookup " +:+ address +:+ ": no such host")), w)
  end.

Definition joined (instance : instances.InstanceInfo) (annotations : gmap string string) :
    core.Node :=
  {| core.NodeMeta :=
       {| meta.Namespace := ""; meta.Name := instances.Address instance;
          meta.Annotations := <[versionAnnotation := "1"]> annotations |};
     core.Status :=
       {| core.Addresses :=
            [ {| core.Type_ := "InternalIP"; core.Address := instances.Address instance |} ] |} |}.

Definition configure (instance : instances.InstanceInfo) (annotations : gmap string string)
    (w : World) : option error * World :=
  if existsb (String.eqb (instances.Address instance)) (brokenHosts w)
  then (Some (New "unable to connect to the instance"), w)
  else (None, setNodes w (nodes w ++ [joined instance annotations])).

Definition sameName (name : string) (node : core.Node) : bool :=
  String.eqb (meta.Name (core.NodeMeta node)) name.

Definition deconfigure (node : core.Node) (w : World) : option error * World :=
  let name := meta.Name (core.NodeMeta node) in
  if existsb (String.eqb name) (stuckNodes w)
  then (Some (New "unable to drain the node"), w)
  else (None, setNodes w (List.filter (fun n => negb (sameName name n)) (nodes w))).

Definition byohFuncs : predicate.Funcs :=
  let marked (o : client.Object) :=
    String.eqb (default "" (client.GetAnnotations o !! BYOHAnnotation)) "true" in
  {| predicate.CreateFunc := Some (fun e => marked (event.CreateObject e));
     predicate.UpdateFunc := Some (fun e => marked (event.ObjectNew e));
     predicate.DeleteFunc := Some (fun e => marked (event.DeleteObject e));
     predicate.GenericFunc := Some (fun _ => false) |}.

#[global] Instance operator : Operator World :=
  {| Signer := unit;
     RestConfig := unit;
     VersionAnnotation := versionAnnotation;
     PrivateKeySecret := "cloud-private-key";
     windowsNodePredicate := fun _ => byohFuncs;
     mapRange := fun m _ => map_to_list m;
     mapRange_perm := fun m _ => reflexivity (map_to_list m);
     net_LookupHost := lookupHost;
     client_Get := fun key => get (kubeTypes.Namespace key) (kubeTypes.Name key);
     client_Create := fun obj w =>
       match create obj w with
       | (inl _, w') => (None, w')
       | (inr err, w') => (Some err, w')
       end;
     client_List := fun w => (inl {| core.Items := nodes w |}, w);
     kubernetes_NewForConfig := fun _ => None;
     typed_Get := get;
     typed_Create := fun _ => create;
     signer_Create := fun _ w => (Some tt, None, w);
     instanceReconciler_configureInstance := fun _ => configure;
     instanceReconciler_deconfigureInstance := fun _ => deconfigure;
     prometheusNodeConfig_Configure := fun w => (None, w) |}.

Definition node (name : string) (annotations : gmap string string) (addresses : list string) :
    core.Node :=
  {| core.NodeMeta :=
       {| meta.Namespace := ""; meta.Name := name; meta.Annotations := annotations |};
     core.Status :=
       {| core.Addresses :=
            map (fun a => {| core.Type_ := "InternalIP"; core.Address := a |}) addresses |} |}.

Definition instancesConfigMap (data : gmap string string) : core.ConfigMap :=
  {| core.ConfigMapMeta :=
       {| meta.Namespace := "openshift-windows-machine-config-operator";
          meta.Name := InstanceConfigMap; meta.Annotations := ∅ |};
     core.Data := data |}.

Definition reconciler : ConfigMapReconciler :=
  {| watchNamespace := "openshift-windows-machine-config-operator" |}.

Definition start (w : World) : State :=
  {| world := w; signer := None; calls := [] |}.

Definition cluster (ns : list core.Node) : World :=
  {| configMaps := []; nodes := ns; dns := []; brokenHosts := []; stuckNodes := [] |}.

End Sim.

(** ** Notions the statements below are written with *)

Section Notions.

Context `{N : Net} {W : Type} `{O : Operator W}.

(** What a run returned, without the state it ended in. *)
Definition result {A} (o : Outcome A) : Panic + A :=
  match o with Done a _ => inr a | Panicked p _ => inl p end.

(** The value of an entry reads [username=<name>]: the text before its first
    [=] is [username]. The name is the rest; it may contain [=]. *)
Definition wellFormedValue (data : string) : Prop :=
  exists name, data = "username=" +:+ name.

(** The host an entry with such a value stands for. *)
Definition toInstance (entry : string * string) : instances.InstanceInfo :=
  instances.NewInstanceInfo (fst entry) (strings.slice_from 9 (snd entry)) "".

(** An address that passes, or fails, validation in whatever state it is
    validated. *)
Definition alwaysValid (address : string) : Prop :=
  forall s : State, exists s', validateAddress address s = Done None s'.

Definition alwaysInvalid (address : string) : Prop :=
  forall s : State, exists err s', validateAddress address s = Done (Some err) s'.

(** The annotations [ensureInstanceIsConfigured] configures a host with. *)
Definition configureAnnotations (instance : instances.InstanceInfo) : gmap string string :=
  {[ BYOHAnnotation := "true"; UsernameAnnotation := instances.Username instance ]}.

(** The decision of [ensureInstanceIsConfigured]: the host is configured
    unless the node [findNode] returns for its address carries the version
    annotation. *)
Definition needsConfigure (nodes : core.NodeList) (instance : instances.InstanceInfo) : bool :=
  match findNode (instances.Address instance) nodes with
  | Some node => bool_decide (meta.Annotations (core.NodeMeta node) !! VersionAnnotation = None)
  | None => true
  end.

(** The decision of [deconfigureInstances]: the node carries the BYOH
    annotation, with whatever value, and no host has one of its addresses. *)
Definition stale (hosts : list instances.InstanceInfo) (node : core.Node) : bool :=
  bool_decide (is_Some (meta.Annotations (core.NodeMeta node) !! BYOHAnnotation))
  && negb (hasAssociatedInstance node hosts).

Definition configured (instance : instances.InstanceInfo) : Call :=
  CallConfigureInstance instance (configureAnnotations instance) None.

Definition deconfigured (node : core.Node) : Call :=
  CallDeconfigureInstance node None.

Definition setupFailure (instances : core.ConfigMap) (host : instances.InstanceInfo) : Call :=
  CallEventf instances core.EventTypeWarning "InstanceSetupFailure"
    ("unable to join instance with address " +:+ instances.Address host +:+ " to the cluster").

Definition isLookup (c : Call) : bool :=
  match c with CallLookupHost _ _ => true | _ => false end.

Definition privateKey (r : ConfigMapReconciler) : kubeTypes.NamespacedName :=
  {| kubeTypes.Namespace := watchNamespace r; kubeTypes.Name := PrivateKeySecret |}.

(** The runs of [reconcileNodes], by the place the function returns from:
    the calls of the run, what it returns, and the hosts it parsed if it
    parsed them. *)
Inductive pass (r : ConfigMapReconciler) (cm : core.ConfigMap) :
    list Call -> Panic + option error -> option (list instances.InstanceInfo) -> Prop :=
| pass_parse_panic lookups p :
    Forall (fun c => isLookup c = true) lookups ->
    pass r cm lookups (inl p) None
| pass_parse_error lookups err :
    Forall (fun c => isLookup c = true) lookups ->
    pass r cm lookups (inr (Some (Wrapf err "unable to parse hosts from configmap"))) None
| pass_list_error lookups hosts err :
    Forall (fun c => isLookup c = true) lookups ->
    pass r cm (lookups ++ [CallList (inr err)])
      (inr (Some (Wrap err "error listing nodes"))) (Some hosts)
| pass_nothing_to_do nodes :
    List.filter isBYOH (core.Items nodes) = [] ->
    pass r cm [CallList (inl nodes)] (inr None) (Some [])
| pass_signer_error lookups hosts nodes err :
    Forall (fun c => isLookup c = true) lookups ->
    pass r cm (lookups ++ [CallList (inl nodes); CallSignerCreate (privateKey r) (Some err)])
      (inr (Some (Wrapf err "unable to create signer from private key secret"))) (Some hosts)
| pass_configure_error lookups nodes before host after err :
    Forall (fun c => isLookup c = true) lookups ->
    needsConfigure nodes host = true ->
    pass r cm
      (lookups ++ [CallList (inl nodes); CallSignerCreate (privateKey r) None]
       ++ map configured (List.filter (needsConfigure nodes) before)
       ++ [CallConfigureInstance host (configureAnnotations host) (Some err);
           setupFailure cm host])
      (inr (Some (Wrapf (Wrap err "error configuring node")
                    ("error configuring host with address " +:+ instances.Address host))))
      (Some (before ++ host :: after))
| pass_deconfigure_error lookups hosts before node after err :
    Forall (fun c => isLookup c = true) lookups ->
    stale hosts node = true ->
    pass r cm
      (lookups
       ++ [CallList (inl {| core.Items := before ++ node :: after |});
           CallSignerCreate (privateKey r) None]
       ++ map configured
            (List.filter (needsConfigure {| core.Items := before ++ node :: after |}) hosts)
       ++ map deconfigured (List.filter (stale hosts) before)
       ++ [CallDeconfigureInstance node (Some err)])
      (inr (Some (Wrap (Wrapf err ("unable to deconfigure instance with node "
                                   +:+ client.GetName (core.NodeMeta node)))
                    "error removing undesired nodes from cluster")))
      (Some hosts)
| pass_complete lookups hosts nodes res :
    Forall (fun c => isLookup c = true) lookups ->
    pass r cm
      (lookups ++ [CallList (inl nodes); CallSignerCreate (privateKey r) None]
       ++ map configured (List.filter (needsConfigure nodes) hosts)
       ++ map deconfigured (List.filter (stale hosts) (core.Items nodes))
       ++ [CallPrometheusConfigure res])
      (inr ((fun err => Wrap err "unable to configure Prometheus") <$> res))
      (Some hosts).

(** Whether the log holds a call that configures a host with this address,
    or one that deconfigures this node. *)
Definition configureAttempted (address : string) (log : list Call) : bool :=
  existsb (fun c => match c with
                    | CallConfigureInstance instance _ _ =>
                        String.eqb (instances.Address instance) address
                    | _ => false
                    end) log.

Definition deconfigureAttempted (node : core.Node) (log : list Call) : bool :=
  existsb (fun c => match c with
                    | CallDeconfigureInstance n _ => bool_decide (n = node)
                    | _ => false
                    end) log.

Definition failedConfigure (c : Call) : bool :=
  match c with CallConfigureInstance _ _ (Some _) => true | _ => false end.

Definition failedDeconfigure (c : Call) : bool :=
  match c with CallDeconfigureInstance _ (Some _) => true | _ => false end.

Definition isListing (c : Call) : bool :=
  match c with CallList _ => true | _ => false end.

(** The reading of the value format with exactly one [=]. *)
Definition exactlyOneEquals (data : string) : Prop :=
  wellFormedValue data /\ strings.CountByte data "=" = 1.

End Notions.

(** ** Clusters and records the statements are tried on *)

Module Scenario.

Definition oneHost : gmap string string := {[ "10.0.0.5" := "username=admin" ]}.

Definition threeHosts : gmap string string :=
  {[ "10.0.0.5" := "username=admin"; "10.0.0.6" := "username=core";
     "10.0.0.7" := "username=ops" ]}.

(** A node whose BYOH annotation is there but says false. *)
Definition optedOut : core.Node :=
  Sim.node "n1" {[ BYOHAnnotation := "false" ]} ["10.0.0.9"].

(** A cluster where the instance at 10.0.0.5 cannot be configured. *)
Definition unreachable : Sim.World :=
  {| Sim.configMaps := []; Sim.nodes := []; Sim.dns := [];
     Sim.brokenHosts := ["10.0.0.5"]; Sim.stuckNodes := [] |}.

(** Two BYOH nodes no host asks for; the first cannot be deconfigured. *)
Definition m1 : core.Node := Sim.node "m1" {[ BYOHAnnotation := "true" ]} ["10.0.0.11"].
Definition m2 : core.Node := Sim.node "m2" {[ BYOHAnnotation := "true" ]} ["10.0.0.12"].

Definition stuck : Sim.World :=
  {| Sim.configMaps := []; Sim.nodes := [m1; m2]; Sim.dns := [];
     Sim.brokenHosts := []; Sim.stuckNodes := ["m1"] |}.

(** Two nodes that report the same address: the first one listed never
    finished its configuration, the second one did. *)
Definition halfJoined : core.Node :=
  Sim.node "old" {[ BYOHAnnotation := "true" ]} ["10.0.0.5"].
Definition fullyJoined : core.Node :=
  Sim.node "new" {[ BYOHAnnotation := "true"; Sim.versionAnnotation := "1" ]} ["10.0.0.5"].

(** A DNS table with one name. *)
Definition resolving : Sim.World :=
  {| Sim.configMaps := []; Sim.nodes := [];
     Sim.dns := [("winhost.example.com", ["10.0.0.8"])];
     Sim.brokenHosts := []; Sim.stuckNodes := [] |}.

Definition trackingKey : kubeTypes.NamespacedName :=
  {| kubeTypes.Namespace := watchNamespace Sim.reconciler;
     kubeTypes.Name := InstanceConfigMap |}.

End Scenario.

(** ** Notions for the properties of whole runs *)

Section Logs.

Context `{N : Net} {W : Type} `{O : Operator W}.

(** The calls of one run of [reconcileNodes]: what it appends to the log. *)
Definition passLog (r : ConfigMapReconciler) (cm : core.ConfigMap) (s : State) : list Call :=
  drop (length (calls s)) (calls (final (reconcileNodes r cm s))).

(** The same for [parseHosts], [ensure], [EnsureWindowsInstancesConfigMap]
    and [Reconcile]. *)
Definition parseLog (m : gmap string string) (s : State) : list Call :=
  drop (length (calls s)) (calls (final (parseHosts m s))).

Definition ensureLog (key : kubeTypes.NamespacedName) (s : State) : list Call :=
  drop (length (calls s)) (calls (final (ensure key s))).

Definition startupLog (cfg : option RestConfig) (namespace : string) (s : State) : list Call :=
  drop (length (calls s)) (calls (final (EnsureWindowsInstancesConfigMap cfg namespace s))).

Definition reconcileLog (r : ConfigMapReconciler) (req : reconcile.Request) (s : State) :
    list Call :=
  drop (length (calls s)) (calls (final (Reconcile r req s))).

(** The instances a log configures, the nodes it deconfigures and the
    addresses it resolves, in the order of the calls. *)
Definition configureTargets (log : list Call) : list instances.InstanceInfo :=
  omap (fun c => match c with CallConfigureInstance i _ _ => Some i | _ => None end) log.

Definition deconfigureTargets (log : list Call) : list core.Node :=
  omap (fun c => match c with CallDeconfigureInstance n _ => Some n | _ => None end) log.

Definition lookupTargets (log : list Call) : list string :=
  omap (fun c => match c with CallLookupHost a _ => Some a | _ => None end) log.

(** Calls through the cached client of the manager, and through the typed
    client. *)
Definition isCachedClient (c : Call) : bool :=
  match c with CallGet _ _ | CallCreate _ _ | CallList _ => true | _ => false end.

Definition isTypedClient (c : Call) : bool :=
  match c with CallTypedGet _ _ _ | CallTypedCreate _ _ _ => true | _ => false end.

Definition isCreate (c : Call) : bool :=
  match c with CallCreate _ _ | CallTypedCreate _ _ _ => true | _ => false end.

(** The node carries the BYOH annotation, whatever its value. *)
Definition annotatedBYOH (node : core.Node) : bool :=
  bool_decide (is_Some (meta.Annotations (core.NodeMeta node) !! BYOHAnnotation)).

(** The address is not an IP literal, so that validating it asks the
    resolver. *)
Definition needsLookup (address : string) : bool :=
  match ParseIP address with Some _ => false | None => true end.

Definition failedListing (c : Call) : bool :=
  match c with CallList (inr _) => true | _ => false end.

Definition failedSigner (c : Call) : bool :=
  match c with CallSignerCreate _ (Some _) => true | _ => false end.

Definition isPrometheus (c : Call) : bool :=
  match c with CallPrometheusConfigure _ => true | _ => false end.

(** A call that configures or deconfigures an instance. *)
Definition isProvisioning (c : Call) : bool :=
  match c with
  | CallConfigureInstance _ _ _ | CallDeconfigureInstance _ _ => true
  | _ => false
  end.

(** The object a request names. *)
Definition requested (req : reconcile.Request) : client.Object :=
  {| meta.Namespace := kubeTypes.Namespace (reconcile.NamespacedName req);
     meta.Name := kubeTypes.Name (reconcile.NamespacedName req);
     meta.Annotations := ∅ |}.

End Logs.

(** ** More records and clusters the statements are tried on *)

Module Cases.

(** A record whose second entry has no [username=] in front. *)
Definition malformed : gmap string string :=
  {[ "10.0.0.5" := "username=admin"; "10.0.0.6" := "admin"; "10.0.0.7" := "username=ops" ]}.

(** A record with a host name among its keys. *)
Definition named : gmap string string :=
  {[ "winhost.example.com" := "username=admin"; "10.0.0.5" := "username=core" ]}.

(** A record with the bare word as a value. *)
Definition bare : gmap string string := {[ "10.0.0.5" := "username" ]}.

(** The small cluster, with a listing, a signer or a Prometheus that may
    fail. *)
Definition failing (listing signing telemetry : option error) : Operator Sim.World :=
  {| Signer := unit;
     RestConfig := unit;
     VersionAnnotation := Sim.versionAnnotation;
     PrivateKeySecret := "cloud-private-key";
     windowsNodePredicate := fun _ => Sim.byohFuncs;
     mapRange := fun m _ => map_to_list m;
     mapRange_perm := fun m _ => reflexivity (map_to_list m);
     net_LookupHost := Sim.lookupHost;
     client_Get := fun key => Sim.get (kubeTypes.Namespace key) (kubeTypes.Name key);
     client_Create := fun obj w =>
       match Sim.create obj w with
       | (inl _, w') => (None, w')
       | (inr err, w') => (Some err, w')
       end;
     client_List := fun w =>
       match listing with
       | Some err => (inr err, w)
       | None => (inl {| core.Items := Sim.nodes w |}, w)
       end;
     kubernetes_NewForConfig := fun _ => None;
     typed_Get := Sim.get;
     typed_Create := fun _ => Sim.create;
     signer_Create := fun _ w =>
       match signing with
       | Some err => (None, Some err, w)
       | None => (Some tt, None, w)
       end;
     instanceReconciler_configureInstance := fun _ => Sim.configure;
     instanceReconciler_deconfigureInstance := fun _ => Sim.deconfigure;
     prometheusNodeConfig_Configure := fun w => (telemetry, w) |}.

Definition begin (listing signing telemetry : option error) (w : Sim.World) :
    State (O := failing listing signing telemetry) :=
  {| world := w; signer := None; calls := [] |}.

(** A cluster that holds the record with the bare word. *)
Definition withBareRecord : Sim.World :=
  {| Sim.configMaps := [Sim.instancesConfigMap bare]; Sim.nodes := []; Sim.dns := [];
     Sim.brokenHosts := []; Sim.stuckNodes := [] |}.

Definition trackingRequest : reconcile.Request :=
  {| reconcile.NamespacedName := Scenario.trackingKey |}.

Definition host5 : instances.InstanceInfo := instances.NewInstanceInfo "10.0.0.5" "admin" "".
Definition host6 : instances.InstanceInfo := instances.NewInstanceInfo "10.0.0.6" "core" "".
Definition host7 : instances.InstanceInfo := instances.NewInstanceInfo "10.0.0.7" "ops" "".

End Cases.

(** ** Go's strings *)

Lemma append_cons (c : ascii) (s t : string) : String c s +:+ t = String c (s +:+ t).
Proof. reflexivity. Qed.

Lemma append_nil (t : string) : "" +:+ t = t.
Proof. reflexivity. Qed.

Lemma HasPrefix_app (p t : string) : strings.HasPrefix (p +:+ t) p = true.
Proof.
  induction p as [|c p IH]; simpl; [done|].
  rewrite bool_decide_eq_true_2 by done. exact IH.
Qed.

Lemma HasPrefix_inv (s p : string) :
  strings.HasPrefix s p = true -> s = p +:+ strings.slice_from (String.length p) s.
Proof.
  revert s. induction p as [|c p IH]; intros s H; simpl in *; [done|].
  destruct s as [|d s]; [done|].
  apply andb_true_iff in H as [Hc Hp]. apply bool_decide_eq_true_1 in Hc. subst d.
  change (String c s = String c (p +:+ strings.slice_from (String.length p) s)).
  f_equal. auto.
Qed.

(** Where [Index] finds the separator, the string splits around it. *)
Lemma Index_split (s sep : string) (m : nat) :
  strings.Index s sep = Some m ->
  s = strings.slice_to m s +:+ sep +:+ strings.slice_from (m + String.length sep) s.
Proof.
  revert m. induction s as [|c s IH]; intros m; simpl.
  - destruct (strings.HasPrefix "" sep) eqn:Hp; [|done].
    intros [= <-]. by apply HasPrefix_inv in Hp.
  - destruct (strings.HasPrefix (String c s) sep) eqn:Hp.
    + intros [= <-]. by apply HasPrefix_inv in Hp.
    + destruct (strings.Index s sep) as [k|] eqn:Hi; simpl; [|done].
      intros [= <-]. simpl. rewrite append_cons. f_equal. by apply IH.
Qed.

(** [strings.SplitN(data, "=", 2)]: one piece when there is no [=], else the
    text before the first [=] and the text after it. *)
Lemma SplitN_2 (data : string) :
  strings.SplitN data "=" 2 =
  match strings.Index data "=" with
  | None => [data]
  | Some m => [strings.slice_to m data; strings.slice_from (m + 1) data]
  end.
Proof.
  unfold strings.SplitN. destruct data as [|c data]; [done|].
  simpl String.length. replace (S (String.length data) + 1) with (S (S (String.length data))) by lia.
  simpl Nat.min. reflexivity.
Qed.

Lemma SplitN_wellFormed (name : string) :
  strings.SplitN ("username=" +:+ name) "=" 2 = ["username"; name].
Proof. by rewrite SplitN_2. Qed.

Lemma SplitN_username_inv (data name : string) (rest : list string) :
  strings.SplitN data "=" 2 = "username" :: name :: rest ->
  data = "username=" +:+ name.
Proof.
  rewrite SplitN_2. destruct (strings.Index data "=") as [m|] eqn:Hi; [|done].
  intros [= H1 H2 _]. apply Index_split in Hi. simpl String.length in Hi.
  rewrite H1, H2 in Hi. exact Hi.
Qed.

Lemma SplitN_single_inv (data first : string) :
  strings.SplitN data "=" 2 = [first] -> first = data.
Proof.
  rewrite SplitN_2. destruct (strings.Index data "="); by intros [= <-].
Qed.

Lemma SplitN_shape (data : string) :
  strings.SplitN data "=" 2 = [data] \/
  exists first name, strings.SplitN data "=" 2 = [first; name].
Proof.
  rewrite SplitN_2. destruct (strings.Index data "="); eauto.
Qed.

(** ** Single calls and the two decisions *)

Section Runs.

Context `{N : Net} {W : Type} `{O : Operator W}.

#[local] Arguments configureAnnotations : simpl never.

Lemma invoke_eq {R} (f : W -> R * W) (entry : R -> Call) (s : State) :
  invoke f entry s =
  Done (f (world s)).1
       {| world := (f (world s)).2; signer := signer s;
          calls := calls s ++ [entry (f (world s)).1] |}.
Proof. unfold invoke. by destruct (f (world s)). Qed.

Lemma Forall_isLookup_nil : Forall (fun c => isLookup c = true) [].
Proof. constructor. Qed.

(** [validateAddress] never panics; it calls nothing but the resolver and
    leaves the signer alone. *)
Lemma validateAddress_run (address : string) (s : State) :
  exists err s' lookups,
    validateAddress address s = Done err s' /\ signer s' = signer s /\
    calls s' = calls s ++ lookups /\ Forall (fun c => isLookup c = true) lookups.
Proof.
  unfold validateAddress. destruct (ParseIP address) as [ip|].
  - destruct (To4 ip); eexists _, s, []; rewrite app_nil_r; repeat split; constructor.
  - unfold bind, do_LookupHost. rewrite invoke_eq.
    destruct (net_LookupHost address (world s)) as [[l|err] w]; simpl.
    + destruct (length l =? 0); eexists _, _, [_]; repeat split; by repeat constructor.
    + eexists _, _, [_]; repeat split; by repeat constructor.
Qed.

(** The decision of [ensureInstanceIsConfigured], and its one call. *)
Lemma ensureInstanceIsConfigured_eq (host : instances.InstanceInfo)
    (nodes : core.NodeList) (s : State) :
  ensureInstanceIsConfigured host nodes s =
  if needsConfigure nodes host then
    let r := instanceReconciler_configureInstance (signer s) host
               (configureAnnotations host) (world s) in
    Done ((fun err => Wrap err "error configuring node") <$> r.1)
         {| world := r.2; signer := signer s;
            calls := calls s ++ [CallConfigureInstance host (configureAnnotations host) r.1] |}
  else Done None s.
Proof.
  unfold ensureInstanceIsConfigured, needsConfigure.
  assert (Hc : forall s0 : State,
    bind (do_configureInstance host
            {[ BYOHAnnotation := "true"; UsernameAnnotation := instances.Username host ]})
         (fun err => match err with
                     | Some err => ret (Some (Wrap err "error configuring node"))
                     | None => ret None
                     end) s0 =
    let r := instanceReconciler_configureInstance (signer s0) host
               (configureAnnotations host) (world s0) in
    Done ((fun err => Wrap err "error configuring node") <$> r.1)
         {| world := r.2; signer := signer s0;
            calls := calls s0 ++ [CallConfigureInstance host (configureAnnotations host) r.1] |}).
  { intros s0. unfold bind, do_configureInstance. rewrite invoke_eq. simpl.
    unfold configureAnnotations.
    by destruct (instanceReconciler_configureInstance _ _ _ _) as [[err|] w]. }
  destruct (findNode (instances.Address host) nodes) as [node|]; [|apply Hc].
  destruct (meta.Annotations (core.NodeMeta node) !! VersionAnnotation) eqn:Hv.
  - by rewrite bool_decide_eq_false_2.
  - rewrite bool_decide_eq_true_2 by done. apply Hc.
Qed.

(** ** The loops *)

(** The loop over the hosts stops at the first host that cannot be
    configured; until then it configures, in order, the hosts that need
    it. *)
Lemma reconcileNodes_hosts_run (cm : core.ConfigMap) (nodes : core.NodeList)
    (hosts : list instances.InstanceInfo) (s : State) :
  exists res s',
    reconcileNodes_hosts cm hosts nodes s = Done res s' /\ signer s' = signer s /\
    match res with
    | None =>
        calls s' = calls s ++ map configured (List.filter (needsConfigure nodes) hosts)
    | Some e =>
        exists before host after err,
          hosts = before ++ host :: after /\ needsConfigure nodes host = true /\
          e = Wrapf (Wrap err "error configuring node")
                ("error configuring host with address " +:+ instances.Address host) /\
          calls s' = calls s ++ map configured (List.filter (needsConfigure nodes) before)
                     ++ [CallConfigureInstance host (configureAnnotations host) (Some err);
                         setupFailure cm host]
    end.
Proof.
  revert s. induction hosts as [|host hosts IH]; intros s.
  - exists None, s. simpl. by rewrite app_nil_r.
  - cbn [reconcileNodes_hosts]. unfold bind at 1. rewrite ensureInstanceIsConfigured_eq.
    destruct (needsConfigure nodes host) eqn:Hn.
    + destruct (instanceReconciler_configureInstance (signer s) host
                  (configureAnnotations host) (world s)) as [[err|] w] eqn:Hc; cbn.
      * eexists _, _. split; [reflexivity|]. split; [done|].
        exists [], host, hosts, err. repeat split; try done.
        cbn. by rewrite <- app_assoc.
      * destruct (IH {| world := w; signer := signer s;
                        calls := calls s ++ [configured host] |})
          as (res & s' & Hrun & Hsig & Hres).
        exists res, s'. split; [exact Hrun|]. split; [exact Hsig|].
        destruct res as [e|].
        -- destruct Hres as (before & h & after & err & -> & Hh & -> & Hcalls).
           exists (host :: before), h, after, err. repeat split; try done.
           rewrite Hcalls. cbn. rewrite Hn. cbn. by rewrite <- app_assoc.
        -- rewrite Hres. rewrite Hn. cbn. by rewrite <- app_assoc.
    + destruct (IH s) as (res & s' & Hrun & Hsig & Hres).
      exists res, s'. split; [exact Hrun|]. split; [exact Hsig|].
      destruct res as [e|].
      * destruct Hres as (before & h & after & err & -> & Hh & -> & Hcalls).
        exists (host :: before), h, after, err. repeat split; try done.
        rewrite Hcalls. cbn. by rewrite Hn.
      * rewrite Hres. cbn. by rewrite Hn.
Qed.

(** The loop over the nodes stops at the first stale node that cannot be
    deconfigured; until then it deconfigures, in order, the stale nodes. *)
Lemma deconfigureInstances_range_run (hosts : list instances.InstanceInfo)
    (items : list core.Node) (s : State) :
  exists res s',
    deconfigureInstances_range hosts items s = Done res s' /\ signer s' = signer s /\
    match res with
    | None => calls s' = calls s ++ map deconfigured (List.filter (stale hosts) items)
    | Some e =>
        exists before node after err,
          items = before ++ node :: after /\ stale hosts node = true /\
          e = Wrapf err ("unable to deconfigure instance with node "
                         +:+ client.GetName (core.NodeMeta node)) /\
          calls s' = calls s ++ map deconfigured (List.filter (stale hosts) before)
                     ++ [CallDeconfigureInstance node (Some err)]
    end.
Proof.
  revert s. induction items as [|node items IH]; intros s.
  - exists None, s. simpl. by rewrite app_nil_r.
  - cbn [deconfigureInstances_range].
    assert (Hskip : stale hosts node = false ->
      exists res s',
        deconfigureInstances_range hosts items s = Done res s' /\ signer s' = signer s /\
        match res with
        | None => calls s' = calls s ++ map deconfigured (List.filter (stale hosts) (node :: items))
        | Some e =>
            exists before n after err,
              node :: items = before ++ n :: after /\ stale hosts n = true /\
              e = Wrapf err ("unable to deconfigure instance with node "
                             +:+ client.GetName (core.NodeMeta n)) /\
              calls s' = calls s ++ map deconfigured (List.filter (stale hosts) before)
                         ++ [CallDeconfigureInstance n (Some err)]
        end).
    { intros Hst. destruct (IH s) as (res & s' & Hrun & Hsig & Hres).
      exists res, s'. split; [exact Hrun|]. split; [exact Hsig|].
      destruct res as [e|].
      - destruct Hres as (before & n & after & err & -> & Hn & -> & Hcalls).
        exists (node :: before), n, after, err. repeat split; try done.
        rewrite Hcalls. cbn. by rewrite Hst.
      - rewrite Hres. cbn. by rewrite Hst. }
    destruct (meta.Annotations (core.NodeMeta node) !! BYOHAnnotation) as [v|] eqn:Hb.
    + destruct (hasAssociatedInstance node hosts) eqn:Ha.
      * apply Hskip. unfold stale. rewrite Ha. apply andb_false_r.
      * assert (Hst : stale hosts node = true).
        { unfold stale. rewrite Ha, Hb. by rewrite bool_decide_eq_true_2. }
        clear Hskip. unfold bind at 1, do_deconfigureInstance. rewrite invoke_eq.
        destruct (instanceReconciler_deconfigureInstance (signer s) node (world s))
          as [[err|] w] eqn:Hd; cbn.
        -- eexists _, _. split; [reflexivity|]. split; [done|].
           exists [], node, items, err. by rewrite Hst.
        -- destruct (IH {| world := w; signer := signer s;
                           calls := calls s ++ [deconfigured node] |})
             as (res & s' & Hrun & Hsig & Hres).
           exists res, s'. split; [exact Hrun|]. split; [exact Hsig|].
           destruct res as [e|].
           ++ destruct Hres as (before & n & after & err & -> & Hn & -> & Hcalls).
              exists (node :: before), n, after, err. repeat split; try done.
              rewrite Hcalls. cbn. rewrite Hst. cbn. by rewrite <- app_assoc.
           ++ rewrite Hres. rewrite Hst. cbn. by rewrite <- app_assoc.
    + apply Hskip. unfold stale. rewrite Hb.
      rewrite bool_decide_eq_false_2; [done|]. by intros [? ?].
Qed.

(** The loop of [parseHosts]: it only calls the resolver; it panics on an
    entry whose value is the bare word [username]; it returns no error only
    after every entry was validated and read as [username=<name>]; and the
    error it returns is about one of the entries. *)
Lemma parseHosts_range_run (entries : list (string * string))
    (hosts : list instances.InstanceInfo) (s : State)
    (out : Outcome (list instances.InstanceInfo * option error)) :
  parseHosts_range entries hosts s = out ->
  signer (final out) = signer s /\
  (exists lookups,
     calls (final out) = calls s ++ lookups /\
     Forall (fun c => isLookup c = true) lookups) /\
  match out with
  | Panicked p _ => p = IndexOutOfRange 1 1 /\ exists a, (a, "username") ∈ entries
  | Done (hs, None) _ =>
      hs = hosts ++ map toInstance entries /\
      Forall (fun e => wellFormedValue e.2 /\
                       exists s1 s2 : State, validateAddress e.1 s1 = Done None s2) entries
  | Done (hs, Some err) _ =>
      exists a d, (a, d) ∈ entries /\
        ((exists cause (s1 s2 : State),
            validateAddress a s1 = Done (Some cause) s2 /\
            err = Wrapf cause ("invalid address " +:+ a)) \/
         (~ wellFormedValue d /\
          err = Errorf ("data for entry " +:+ a +:+ " has an incorrect format")))
  end.
Proof.
  revert hosts s out. induction entries as [|[a d] entries IH]; intros hosts s out Hout.
  - cbn in Hout. unfold ret in Hout. subst out. cbn.
    split; [done|]. split; [exists []; by rewrite app_nil_r|].
    by rewrite app_nil_r.
  - cbn [parseHosts_range] in Hout. unfold bind at 1 in Hout.
    destruct (validateAddress_run a s) as (verr & s1 & lk & Hv & Hsig & Hcalls & Hlk).
    rewrite Hv in Hout. destruct verr as [cause|].
    { unfold ret in Hout. subst out. cbn. split; [done|]. split; [by exists lk|].
      exists a, d. split; [by left|]. left. by exists cause, s, s1. }
    assert (Hbad : ~ wellFormedValue d ->
      out = Done (hosts, Some (Errorf ("data for entry " +:+ a
                                       +:+ " has an incorrect format"))) s1 ->
      signer (final out) = signer s /\
      (exists lookups, calls (final out) = calls s ++ lookups /\
                       Forall (fun c => isLookup c = true) lookups) /\
      match out with
      | Panicked p _ => p = IndexOutOfRange 1 1 /\ exists a0, (a0, "username") ∈ (a, d) :: entries
      | Done (hs, None) _ =>
          hs = hosts ++ map toInstance ((a, d) :: entries) /\
          Forall (fun e => wellFormedValue e.2 /\
                           exists s1 s2 : State, validateAddress e.1 s1 = Done None s2)
                 ((a, d) :: entries)
      | Done (hs, Some err) _ =>
          exists a0 d0, (a0, d0) ∈ (a, d) :: entries /\
            ((exists cause (s1 s2 : State),
                validateAddress a0 s1 = Done (Some cause) s2 /\
                err = Wrapf cause ("invalid address " +:+ a0)) \/
             (~ wellFormedValue d0 /\
              err = Errorf ("data for entry " +:+ a0 +:+ " has an incorrect format")))
      end).
    { intros Hd ->. cbn. split; [done|]. split; [by exists lk|].
      exists a, d. split; [by left|]. by right. }
    destruct (SplitN_shape d) as [Hs|(first & name & Hs)]; rewrite Hs in Hout; cbn in Hout.
    + unfold bind, index in Hout. cbn in Hout.
      destruct (String.eqb_spec d "username") as [->|Hne]; cbn in Hout.
      * unfold panic in Hout. subst out. cbn.
        split; [done|]. split; [by exists lk|]. split; [done|].
        exists a. by left.
      * apply Hbad; [|done]. intros [name ->]. by rewrite SplitN_wellFormed in Hs.
    + unfold bind, index in Hout. cbn in Hout.
      destruct (String.eqb_spec first "username") as [->|Hne]; cbn in Hout.
      * apply SplitN_username_inv in Hs as ->.
        apply IH in Hout as (IHsig & (lk' & IHcalls & IHlk) & IHres).
        split; [congruence|].
        split. { exists (lk ++ lk'). rewrite IHcalls, Hcalls, <- app_assoc.
                 split; [done|]. by apply Forall_app. }
        destruct out as [[hs [err|]] s2|p s2].
        -- destruct IHres as (a0 & d0 & Hin & Hor). exists a0, d0. split; [by right|done].
        -- destruct IHres as [-> Hall]. split.
           ++ by rewrite <- app_assoc.
           ++ constructor; [|done]. split; [by exists name|]. by exists s, s1.
        -- destruct IHres as [-> [a0 Hin]]. split; [done|]. exists a0. by right.
      * apply Hbad; [|done]. intros [name' ->]. rewrite SplitN_wellFormed in Hs. congruence.
Qed.

(** The hosts [parseHosts] returns have pairwise different addresses: they
    come from the keys of a map. *)
Lemma parseHosts_NoDup (m : gmap string string) (s s' : State)
    (hosts : list instances.InstanceInfo) :
  parseHosts m s = Done (hosts, None) s' -> NoDup (map instances.Address hosts).
Proof.
  unfold parseHosts. intros Hrun.
  apply parseHosts_range_run in Hrun as (_ & _ & [-> _]). cbn.
  rewrite map_map. cbn.
  change (NoDup ((mapRange m (world s)).*1)).
  rewrite (mapRange_perm m (world s)). apply NoDup_fst_map_to_list.
Qed.

(** [parseHosts] returns no host only for a map without entries, and then
    it has called nothing. *)
Lemma parseHosts_nil (m : gmap string string) (s s' : State) :
  parseHosts m s = Done ([], None) s' -> m = ∅ /\ s' = s.
Proof.
  unfold parseHosts. intros Hrun.
  pose proof Hrun as (_ & _ & [Hnil _])%parseHosts_range_run.
  symmetry in Hnil. apply map_eq_nil in Hnil.
  rewrite Hnil in Hrun. cbn in Hrun. unfold ret in Hrun. split; [|congruence].
  pose proof (mapRange_perm m (world s)) as Hperm. rewrite Hnil in Hperm.
  apply Permutation_nil_l in Hperm. by apply map_to_list_empty_iff.
Qed.

(** Every run of [reconcileNodes] is one of the runs of [pass]. *)
Lemma reconcileNodes_pass (r : ConfigMapReconciler) (cm : core.ConfigMap) (s : State) :
  exists delta ohosts,
    calls (final (reconcileNodes r cm s)) = calls s ++ delta /\
    pass r cm delta (result (reconcileNodes r cm s)) ohosts /\
    forall hosts, ohosts = Some hosts ->
      exists s1, parseHosts (core.Data cm) s = Done (hosts, None) s1.
Proof.
  remember (reconcileNodes r cm s) as out eqn:Hout.
  unfold reconcileNodes in Hout. unfold bind at 1 in Hout.
  destruct (parseHosts (core.Data cm) s) as [[hosts [err|]] s1|p s1] eqn:Hp.
  - pose proof Hp as (_ & (lk & Hcalls & Hlk) & _)%parseHosts_range_run.
    unfold ret in Hout. subst out.
    exists lk, None. cbn in *. split; [done|]. split; [by constructor|done].
  - pose proof Hp as (Hsig & (lk & Hcalls & Hlk) & _)%parseHosts_range_run.
    cbn in Hsig, Hcalls.
    unfold bind at 1, do_List in Hout. rewrite invoke_eq in Hout.
    destruct (client_List (world s1)) as [[nodes|err] w2]; cbn [fst snd] in Hout.
    2:{ unfold ret in Hout. subst out.
        exists (lk ++ [CallList (inr err)]), (Some hosts). cbn.
        rewrite Hcalls, <- app_assoc. split; [done|]. split; [by constructor|].
        intros ? [= <-]. by exists s1. }
    destruct ((length hosts =? 0) && (length (List.filter isBYOH (core.Items nodes)) =? 0))
      eqn:Hempty.
    { apply andb_true_iff in Hempty as [Hh Hb].
      apply Nat.eqb_eq in Hh, Hb. apply nil_length_inv in Hh, Hb. subst hosts.
      pose proof Hp as [_ ->]%parseHosts_nil.
      unfold ret in Hout. subst out.
      exists [CallList (inl nodes)], (Some []). cbn.
      split; [done|]. split; [by constructor|].
      intros ? [= <-]. by exists s. }
    unfold bind at 1, do_signer_Create in Hout. cbn [world signer calls] in Hout.
    fold (privateKey r) in Hout.
    destruct (signer_Create (privateKey r) w2) as [[sg [err|]] w3] eqn:Hsg.
    { unfold ret in Hout. subst out.
      exists (lk ++ [CallList (inl nodes); CallSignerCreate (privateKey r) (Some err)]),
        (Some hosts). cbn.
      rewrite Hcalls, <- !app_assoc. split; [done|]. split; [by constructor|].
      intros ? [= <-]. by exists s1. }
    unfold bind at 1 in Hout.
    destruct (reconcileNodes_hosts_run cm nodes hosts
                {| world := w3; signer := sg;
                   calls := (calls s1 ++ [CallList (inl nodes)])
                            ++ [CallSignerCreate (privateKey r) None] |})
      as (res & s4 & Hrun & Hsig4 & Hres).
    rewrite Hrun in Hout. destruct res as [e|].
    { destruct Hres as (before & host & after & err & -> & Hneeds & -> & Hcalls4).
      unfold ret in Hout. subst out.
      eexists _, (Some (before ++ host :: after)). cbn. split; [|split].
      2:{ by apply (pass_configure_error r cm lk nodes before host after err). }
      - rewrite Hcalls4. cbn. rewrite Hcalls, <- !app_assoc. done.
      - intros ? [= <-]. by exists s1. }
    cbn in Hres. unfold bind at 1, deconfigureInstances in Hout.
    destruct (deconfigureInstances_range_run hosts (core.Items nodes) s4)
      as (res & s5 & Hrun5 & Hsig5 & Hres5).
    rewrite Hrun5 in Hout. destruct res as [e|].
    { destruct Hres5 as (before & node & after & err & Hitems & Hstale & -> & Hcalls5).
      destruct nodes as [items]. cbn in Hitems. subst items.
      unfold ret in Hout. subst out.
      eexists _, (Some hosts). cbn. split; [|split].
      2:{ by apply (pass_deconfigure_error r cm lk hosts before node after err). }
      - rewrite Hcalls5, Hres, Hcalls. cbn. rewrite <- !app_assoc. done.
      - intros ? [= <-]. by exists s1. }
    unfold bind at 1, do_prometheus_Configure in Hout. rewrite invoke_eq in Hout.
    destruct (prometheusNodeConfig_Configure (world s5)) as [perr w6]. cbn [fst snd] in Hout.
    assert (Hout' : out = Done ((fun err => Wrap err "unable to configure Prometheus") <$> perr)
                            {| world := w6; signer := signer s5;
                               calls := calls s5 ++ [CallPrometheusConfigure perr] |}).
    { rewrite Hout. by destruct perr. }
    clear Hout. subst out.
    eexists _, (Some hosts). cbn. split; [|split].
    2:{ by apply (pass_complete r cm lk hosts nodes perr). }
    + rewrite Hres5, Hres, Hcalls. cbn. rewrite <- !app_assoc. done.
    + intros ? [= <-]. by exists s1.
  - pose proof Hp as (_ & (lk & Hcalls & Hlk) & _)%parseHosts_range_run.
    subst out.
    exists lk, None. cbn in *. split; [done|]. split; [by constructor|done].
Qed.

End Runs.

(** ** Address validation and the parser of the record *)

Section Parsing.

Context `{N : Net} {W : Type} `{O : Operator W}.




(** A parse error ends the pass: [reconcileNodes] returns it, wrapped, and
    does nothing else. *)
Lemma reconcileNodes_parse_error (r : ConfigMapReconciler) (cm : core.ConfigMap)
    (s s' : State) (hosts : list instances.InstanceInfo) (err : error) :
  parseHosts (core.Data cm) s = Done (hosts, Some err) s' ->
  reconcileNodes r cm s = Done (Some (Wrapf err "unable to parse hosts from configmap")) s'.
Proof. intros Hp. unfold reconcileNodes, bind. by rewrite Hp. Qed.

Lemma elem_of_mapRange (m : gmap string string) (w : W) (a d : string) :
  (a, d) ∈ mapRange m w <-> m !! a = Some d.
Proof. rewrite (mapRange_perm m w). apply elem_of_map_to_list. Qed.

End Parsing.



(** C10. The guard of [parseHosts] lets the value "username" through: the
    split has one piece, the piece is "username", and reading the second
    piece panics. *)
Theorem parseHosts_bare_username_panics :
  forall (W : Type) (O : Operator W) (s : State),
    strings.SplitN "username" "=" 2 = ["username"] /\
    parseHosts (N := GoNet) {[ "10.0.0.5" := "username" ]} s
    = Panicked (IndexOutOfRange 1 1) s.
Proof.
  intros W O s. split; [reflexivity|].
  unfold parseHosts.
  pose proof (mapRange_perm {[ "10.0.0.5" := "username" ]} (world s)) as Hperm.
  rewrite map_to_list_singleton in Hperm.
  apply Permutation_singleton_r in Hperm. rewrite Hperm. reflexivity.
Qed.

(** C5, as the code has it. For a record none of whose values is the bare
    word "username": [parseHosts] returns; it returns no error only if every
    value reads [username=<name>], where the name is all that follows the
    first [=], and then the hosts are the entries in the order of the walk;
    it returns no error if moreover every key always passes validation; and
    if some entry has another value, or a key that always fails validation,
    it returns an error that names the key of an entry at fault, whatever
    the other entries are. [reconcileNodes] returns that error, wrapped, and
    does nothing else in the pass. *)
Theorem parseHosts_accepts_username_values :
  forall (N : Net) (W : Type) (O : Operator W),
    (forall (m : gmap string string) (s : State),
       (forall a d, m !! a = Some d -> d <> "username") ->
       exists hosts oerr s',
         parseHosts m s = Done (hosts, oerr) s' /\
         (oerr = None ->
            hosts = map toInstance (mapRange m (world s)) /\
            forall a d, m !! a = Some d -> wellFormedValue d) /\
         ((forall a d, m !! a = Some d -> wellFormedValue d /\ alwaysValid a) ->
            oerr = None) /\
         ((exists a d, m !! a = Some d /\ (~ wellFormedValue d \/ alwaysInvalid a)) ->
            exists a d err,
              m !! a = Some d /\ oerr = Some err /\
              ((exists cause (s1 s2 : State),
                  validateAddress a s1 = Done (Some cause) s2 /\
                  err = Wrapf cause ("invalid address " +:+ a)) \/
               (~ wellFormedValue d /\
                err = Errorf ("data for entry " +:+ a +:+ " has an incorrect format"))))) /\
    (forall (r : ConfigMapReconciler) (cm : core.ConfigMap) (s s' : State) hosts err,
       parseHosts (core.Data cm) s = Done (hosts, Some err) s' ->
       reconcileNodes r cm s
       = Done (Some (Wrapf err "unable to parse hosts from configmap")) s').
Proof.
  intros N W O. split; [|apply reconcileNodes_parse_error].
  intros m s Hbare. unfold parseHosts.
  pose proof (parseHosts_range_run (mapRange m (world s)) [] s _ eq_refl)
    as (_ & _ & Hres).
  destruct (parseHosts_range (mapRange m (world s)) [] s) as [[hosts oerr] s'|p s'].
  2:{ destruct Hres as [_ [a Hin]]. apply elem_of_mapRange in Hin.
      by destruct (Hbare a "username"). }
  exists hosts, oerr, s'. split; [done|].
  destruct oerr as [err|].
  - destruct Hres as (a & d & Hin & Hor). apply elem_of_mapRange in Hin.
    split; [done|]. split.
    + intros Hgood. destruct (Hgood a d Hin) as [Hwf Hvalid].
      destruct Hor as [(cause & s1 & s2 & Hv & _)|[Hnwf _]]; [|done].
      destruct (Hvalid s1) as [s3 Hv']. congruence.
    + intros _. by exists a, d, err.
  - destruct Hres as [-> Hall]. rewrite Forall_forall in Hall.
    split; [|split]; [| done |].
    + intros _. split; [done|]. intros a d Hin.
      apply elem_of_mapRange with (w := world s) in Hin. by destruct (Hall _ Hin).
    + intros (a & d & Hin & Hbad).
      apply elem_of_mapRange with (w := world s) in Hin.
      destruct (Hall _ Hin) as [Hwf (s1 & s2 & Hv)]. cbn in Hwf, Hv.
      destruct Hbad as [Hnwf|Hinv]; [done|].
      destruct (Hinv s1) as (err & s3 & Hv'). congruence.
Qed.

Lemma parseHosts_accepts_username_values_witness :
  exists hosts oerr s',
    parseHosts (N := GoNet) Scenario.threeHosts (Sim.start (Sim.cluster []))
    = Done (hosts, oerr) s' /\ oerr = None.
Proof.
  destruct (proj1 (parseHosts_accepts_username_values GoNet Sim.World Sim.operator)
              Scenario.threeHosts (Sim.start (Sim.cluster [])))
    as (hosts & oerr & s' & Hrun & _ & Hgood & _).
  - intros a d Hin%elem_of_map_to_list ->. revert Hin.
    replace (map_to_list Scenario.threeHosts)
      with [("10.0.0.7", "username=ops"); ("10.0.0.5", "username=admin");
            ("10.0.0.6", "username=core")] by (vm_compute; reflexivity).
    rewrite !elem_of_cons, elem_of_nil. intros [H|[H|[H|[]]]]; discriminate H.
  - exists hosts, oerr, s'. split; [exact Hrun|]. apply Hgood.
    intros a d Hin%elem_of_map_to_list. revert Hin.
    replace (map_to_list Scenario.threeHosts)
      with [("10.0.0.7", "username=ops"); ("10.0.0.5", "username=admin");
            ("10.0.0.6", "username=core")] by (vm_compute; reflexivity).
    rewrite !elem_of_cons, elem_of_nil.
    intros [[= -> ->]|[[= -> ->]|[[= -> ->]|[]]]].
    + split; [by exists "ops"|]. intros s. by exists s.
    + split; [by exists "admin"|]. intros s. by exists s.
    + split; [by exists "core"|]. intros s. by exists s.
Defined.

(** C5, as it is stated, fails: a value with two [=] is accepted; the name
    is then what follows the first of them. *)
Lemma parseHosts_accepts_second_equals :
  parseHosts (N := GoNet) {[ "10.0.0.5" := "username=a=b" ]} (Sim.start (Sim.cluster []))
  = Done ([instances.NewInstanceInfo "10.0.0.5" "a=b" ""], None) (Sim.start (Sim.cluster [])) /\
  ~ exactlyOneEquals "username=a=b".
Proof.
  split; [by vm_compute|]. intros [_ Hcount]. vm_compute in Hcount. discriminate.
Qed.

(** ** The event filter *)

(** C8. A create, update or delete event of a ConfigMap passes the filter if
    and only if the namespace and the name of its object (the new object of
    an update) are the watched namespace and [windows-instances], and, for a
    delete, the final state of the object is known; a Node event is filtered
    by [windowsNodePredicate(true)], and whatever Node it is about it maps
    to the one request for [windows-instances] in the watched namespace. *)
Theorem event_filter :
  forall (W : Type) (O : Operator W) (r : ConfigMapReconciler),
    let registration := SetupWithManager r in
    let tracked (o : client.Object) :=
      client.GetNamespace o = watchNamespace r /\ client.GetName o = InstanceConfigMap in
    (forall e, predicate.Create (ForPredicate registration) e = true
               <-> tracked (event.CreateObject e)) /\
    (forall e, predicate.Update (ForPredicate registration) e = true
               <-> tracked (event.ObjectNew e)) /\
    (forall e, predicate.Delete (ForPredicate registration) e = true
               <-> event.DeleteStateUnknown e = false /\ tracked (event.DeleteObject e)) /\
    WatchesPredicate registration = windowsNodePredicate true /\
    (forall o : client.Object,
       WatchesMapFunc registration o
       = [ {| reconcile.NamespacedName :=
                {| kubeTypes.Namespace := watchNamespace r;
                   kubeTypes.Name := InstanceConfigMap |} |} ]).
Proof.
  intros W O r registration tracked.
  assert (Hvalid : forall o, isValidConfigMap r o = true <-> tracked o).
  { intros o. unfold isValidConfigMap, tracked.
    rewrite andb_true_iff, !String.eqb_eq. done. }
  split; [|split; [|split; [|split]]]; try done.
  - intros e. apply Hvalid.
  - intros e. apply Hvalid.
  - intros e. unfold predicate.Delete. cbn.
    destruct (event.DeleteStateUnknown e).
    + split; [done|]. by intros [? _].
    + rewrite Hvalid. tauto.
Qed.

(** ** The bootstrap of the ConfigMap *)

(** C9. [ensure] returns the ConfigMap a successful Get returns, and creates
    nothing; an error of the Get that is not a not-found error is returned
    as it is; after a not-found error it creates the empty ConfigMap of that
    name and namespace, and returns what a second Get returns. When a Get
    only reads, a second [ensure] after a successful one returns the same
    ConfigMap with a single Get. At startup,
    [EnsureWindowsInstancesConfigMap] goes through the typed client in the
    same way: nothing is created when the Get succeeds, the empty ConfigMap
    is created after a not-found error, any other error of the Get is
    returned as it is; it returns an error and calls nothing without a
    configuration. *)
Theorem ensure_creates_if_absent :
  forall (W : Type) (O : Operator W),
    (forall key (s : State) cm w',
       client_Get key (world s) = (inl cm, w') ->
       ensure key s
       = Done (Some cm, None)
              {| world := w'; signer := signer s;
                 calls := calls s ++ [CallGet key (inl cm)] |}) /\
    (forall key (s : State) err w1,
       client_Get key (world s) = (inr err, w1) -> IsNotFound err = false ->
       ensure key s
       = Done (Some core.emptyConfigMap, Some err)
              {| world := w1; signer := signer s;
                 calls := calls s ++ [CallGet key (inr err)] |}) /\
    (forall key (s : State) err w1 created w2,
       let obj := withIdentity core.emptyConfigMap
                    (kubeTypes.Namespace key) (kubeTypes.Name key) in
       client_Get key (world s) = (inr err, w1) -> IsNotFound err = true ->
       client_Create obj w1 = (created, w2) ->
       match created with
       | Some cerr =>
           ensure key s
           = Done (None, Some cerr)
                  {| world := w2; signer := signer s;
                     calls := calls s ++ [CallGet key (inr err); CallCreate obj (Some cerr)] |}
       | None =>
           exists again w3,
             client_Get key w2 = (again, w3) /\
             ensure key s
             = Done match again with
                    | inl cm => (Some cm, None)
                    | inr gerr => (None, Some gerr)
                    end
                    {| world := w3; signer := signer s;
                       calls := calls s ++ [CallGet key (inr err); CallCreate obj None;
                                            CallLogInfo "Created" "ConfigMap" key;
                                            CallGet key again] |}
       end) /\
    ((forall key w res w', client_Get key w = (res, w') -> w' = w) ->
     forall key (s s' : State) cm,
       ensure key s = Done (Some cm, None) s' ->
       ensure key s'
       = Done (Some cm, None)
              {| world := world s'; signer := signer s';
                 calls := calls s' ++ [CallGet key (inl cm)] |}) /\
    (forall namespace (s : State),
       EnsureWindowsInstancesConfigMap None namespace s
       = Done (Some (New "config should not be nil")) s) /\
    (forall cfg namespace (s : State),
       kubernetes_NewForConfig cfg = None ->
       (forall cm w',
          typed_Get namespace InstanceConfigMap (world s) = (inl cm, w') ->
          EnsureWindowsInstancesConfigMap (Some cfg) namespace s
          = Done None
                 {| world := w'; signer := signer s;
                    calls := calls s ++ [CallNewForConfig None;
                                         CallTypedGet namespace InstanceConfigMap (inl cm)] |}) /\
       (forall err w1,
          typed_Get namespace InstanceConfigMap (world s) = (inr err, w1) ->
          IsNotFound err = false ->
          EnsureWindowsInstancesConfigMap (Some cfg) namespace s
          = Done (Some err)
                 {| world := w1; signer := signer s;
                    calls := calls s ++ [CallNewForConfig None;
                                         CallTypedGet namespace InstanceConfigMap (inr err)] |}) /\
       (forall err w1 created w2,
          let obj := withIdentity core.emptyConfigMap namespace InstanceConfigMap in
          typed_Get namespace InstanceConfigMap (world s) = (inr err, w1) ->
          IsNotFound err = true ->
          typed_Create namespace obj w1 = (created, w2) ->
          EnsureWindowsInstancesConfigMap (Some cfg) namespace s
          = Done match created with inr cerr => Some cerr | inl _ => None end
                 {| world := w2; signer := signer s;
                    calls := calls s
                             ++ [CallNewForConfig None;
                                 CallTypedGet namespace InstanceConfigMap (inr err);
                                 CallTypedCreate namespace obj created]
                             ++ match created with
                                | inr _ => []
                                | inl _ =>
                                    [CallLogInfo "Created" "ConfigMap"
                                       {| kubeTypes.Namespace := namespace;
                                          kubeTypes.Name := InstanceConfigMap |}]
                                end |})).
Proof.
  intros W O.
  assert (Hfound : forall key (s : State) cm w',
    client_Get key (world s) = (inl cm, w') ->
    ensure key s
    = Done (Some cm, None)
           {| world := w'; signer := signer s;
              calls := calls s ++ [CallGet key (inl cm)] |}).
  { intros key s cm w' Hget. unfold ensure, bind, do_Get. rewrite invoke_eq, Hget. done. }
  split; [exact Hfound|]. split; [|split; [|split; [|split]]].
  - intros key s err w1 Hget Hnf. unfold ensure, bind, do_Get.
    rewrite invoke_eq, Hget. cbn. by rewrite Hnf.
  - intros key s err w1 created w2 obj Hget Hnf Hcreate. unfold ensure, bind, do_Get.
    rewrite invoke_eq, Hget. cbn. rewrite Hnf. unfold do_Create. rewrite invoke_eq. cbn.
    fold obj. rewrite Hcreate. cbn. destruct created as [cerr|].
    { cbn. by rewrite <- !app_assoc. }
    rewrite invoke_eq. cbn.
    destruct (client_Get key w2) as [again w3]. exists again, w3. split; [done|].
    cbn. rewrite <- !app_assoc. by destruct again.
  - intros Hread key s s' cm Hrun. apply Hfound.
    unfold ensure, bind, do_Get in Hrun. rewrite invoke_eq in Hrun.
    destruct (client_Get key (world s)) as [[found|err] w1] eqn:Hget;
      cbn in Hrun; unfold ret in Hrun.
    + injection Hrun as <- <-. cbn. apply Hread in Hget as Hw. by subst w1.
    + destruct (IsNotFound err); [|done].
      unfold do_Create in Hrun. rewrite invoke_eq in Hrun. cbn in Hrun.
      destruct (client_Create _ w1) as [[cerr|] w2]; cbn in Hrun; [done|].
      rewrite invoke_eq in Hrun. cbn in Hrun.
      destruct (client_Get key w2) as [[found|gerr] w3] eqn:Hget2;
        cbn in Hrun; unfold ret in Hrun; [|done].
      injection Hrun as <- <-. cbn. apply Hread in Hget2 as Hw. by subst w3.
  - done.
  - intros cfg namespace s Hcfg. repeat split.
    + intros cm w' Hget. unfold EnsureWindowsInstancesConfigMap, bind, do_NewForConfig.
      rewrite Hcfg. unfold do_TypedGet. rewrite invoke_eq. cbn. rewrite Hget. cbn.
      by rewrite <- app_assoc.
    + intros err w1 Hget Hnf. unfold EnsureWindowsInstancesConfigMap, bind, do_NewForConfig.
      rewrite Hcfg. unfold do_TypedGet. rewrite invoke_eq. cbn. rewrite Hget. cbn.
      rewrite Hnf. cbn. by rewrite <- app_assoc.
    + intros err w1 created w2 obj Hget Hnf Hcreate.
      unfold EnsureWindowsInstancesConfigMap, bind, do_NewForConfig.
      rewrite Hcfg. unfold do_TypedGet. rewrite invoke_eq. cbn. rewrite Hget. cbn.
      rewrite Hnf. unfold do_TypedCreate. rewrite invoke_eq. cbn. fold obj.
      rewrite Hcreate. cbn. destruct created as [cm|cerr]; cbn.
      * by rewrite <- !app_assoc.
      * by rewrite <- !app_assoc.
Qed.

Lemma ensure_creates_if_absent_witness :
  exists s' s'',
    ensure Scenario.trackingKey (Sim.start (Sim.cluster []))
    = Done (Some (Sim.instancesConfigMap ∅), None) s' /\
    ensure Scenario.trackingKey s' = Done (Some (Sim.instancesConfigMap ∅), None) s'' /\
    calls s'' = calls s' ++ [CallGet Scenario.trackingKey (inl (Sim.instancesConfigMap ∅))].
Proof.
  pose proof (ensure_creates_if_absent Sim.World Sim.operator)
    as (_ & _ & Hcreate & Hagain & _).
  specialize (Hcreate Scenario.trackingKey (Sim.start (Sim.cluster []))
                (Sim.notFound InstanceConfigMap) (Sim.cluster []) None
                (Sim.setConfigMaps (Sim.cluster []) [Sim.instancesConfigMap ∅])
                eq_refl eq_refl eq_refl).
  destruct Hcreate as (again & w3 & Hget & Hrun).
  vm_compute in Hget. injection Hget as <- <-.
  eexists _, _. split; [exact Hrun|].
  assert (Hread : forall key w res w',
            client_Get (Operator := Sim.operator) key w = (res, w') -> w' = w).
  { intros key w res w'. cbn. unfold Sim.get.
    destruct (find _ _); by intros [= _ <-]. }
  split; [exact (Hagain Hread _ _ _ _ Hrun)|reflexivity].
Defined.

(** ** What one pass calls *)

(** Cutting a list at its only element that satisfies a test. *)
Lemma split_at_only {A} (P : A -> bool) (pre post l1 l2 : list A) (x y : A) :
  Forall (fun a => P a = false) pre -> Forall (fun a => P a = false) post ->
  P y = true ->
  pre ++ x :: post = l1 ++ y :: l2 ->
  l1 = pre /\ y = x /\ l2 = post.
Proof.
  intros Hpre Hpost Hy. revert l1. induction Hpre as [|a pre Ha Hpre IH]; intros l1 Heq.
  - destruct l1 as [|b l1]; cbn in Heq.
    + by injection Heq as <- <-.
    + injection Heq as <- ->. apply Forall_app in Hpost as [_ Hpost].
      apply Forall_cons in Hpost as [Hy' _]. congruence.
  - destruct l1 as [|b l1]; cbn in Heq.
    + injection Heq as <- _. congruence.
    + injection Heq as <- Heq. destruct (IH _ Heq) as (-> & -> & ->). done.
Qed.

Lemma no_split {A} (P : A -> bool) (l l1 l2 : list A) (y : A) :
  Forall (fun a => P a = false) l -> P y = true -> l = l1 ++ y :: l2 -> False.
Proof.
  intros Hl Hy ->. apply Forall_app in Hl as [_ Hl].
  apply Forall_cons in Hl as [Hy' _]. congruence.
Qed.

Section Passes.

Context `{N : Net} {W : Type} `{O : Operator W}.

Lemma lookups_none (P : Call -> bool) (lookups : list Call) :
  (forall c, isLookup c = true -> P c = false) ->
  Forall (fun c => isLookup c = true) lookups ->
  Forall (fun c => P c = false) lookups.
Proof. intros HP Hl. eapply Forall_impl; [exact Hl|exact HP]. Qed.

Lemma configured_none (P : Call -> bool) (hosts : list instances.InstanceInfo) :
  (forall h, P (configured h) = false) ->
  Forall (fun c => P c = false) (map configured hosts).
Proof. intros HP. apply List.Forall_map, Forall_forall. intros h _. apply HP. Qed.

Lemma deconfigured_none (P : Call -> bool) (nodes : list core.Node) :
  (forall n, P (deconfigured n) = false) ->
  Forall (fun c => P c = false) (map deconfigured nodes).
Proof. intros HP. apply List.Forall_map, Forall_forall. intros n _. apply HP. Qed.

End Passes.

(** Proves that no call of a concatenation of the pieces above satisfies a
    test. *)
Ltac none_of :=
  solve [ repeat first
    [ apply Forall_nil_2
    | apply Forall_cons_2; [reflexivity|]
    | apply Forall_app; split
    | apply configured_none; intros ?; reflexivity
    | apply deconfigured_none; intros ?; reflexivity
    | apply lookups_none; [by intros []|assumption] ] ].

(** Cuts the equation [Hsplit] between two splittings of a log at the only
    call that satisfies [P]; [Hl] names the equation between the two
    calls. *)
Tactic Notation "cut_at" constr(P) hyp(Hsplit) ident(Hl) :=
  match type of Hsplit with
  | _ = ?l1 ++ ?y :: ?l2 =>
      let Hcut := fresh "Hcut" in
      eassert (Hcut : l1 = _ /\ y = _ /\ l2 = _)
        by (eapply (split_at_only P); [ | | | exact Hsplit ]; [none_of | none_of | done]);
      destruct Hcut as (? & Hl & ?)
  end.

(** Splits the membership [Hin] of a call in a concatenation into the
    memberships in its pieces. *)
Ltac member_cases Hin :=
  repeat rewrite in_app_iff in Hin; cbn [In] in Hin;
  repeat match type of Hin with
         | _ \/ _ => destruct Hin as [Hin|Hin]
         | False => destruct Hin
         end.

Section Claims.

Context `{N : Net} {W : Type} `{O : Operator W}.

Lemma isBYOH_true (node : core.Node) :
  isBYOH node = true <->
  client.GetAnnotations (core.NodeMeta node) !! BYOHAnnotation = Some "true".
Proof.
  unfold isBYOH. destruct (client.GetAnnotations (core.NodeMeta node) !! BYOHAnnotation) as [v|].
  - cbn. rewrite String.eqb_eq. split; congruence.
  - cbn. split; discriminate.
Qed.

Lemma filter_none {A} (f : A -> bool) (l : list A) :
  (forall x, x ∈ l -> f x = false) -> List.filter f l = [].
Proof.
  induction l as [|x l IH]; intros Hl; [done|]. cbn.
  rewrite (Hl x) by (by left). apply IH. intros y Hy. apply Hl. by right.
Qed.

Lemma needsConfigure_false (nodes : core.NodeList) (host : instances.InstanceInfo)
    (node : core.Node) :
  findNode (instances.Address host) nodes = Some node ->
  is_Some (meta.Annotations (core.NodeMeta node) !! VersionAnnotation) ->
  needsConfigure nodes host = false.
Proof.
  intros Hf [v Hv]. unfold needsConfigure. rewrite Hf, Hv. by apply bool_decide_eq_false_2.
Qed.

(** Hosts come from the keys of a map: a host listed after another has an
    address of its own. *)
Lemma later_address_fresh (before after : list instances.InstanceInfo)
    (host later : instances.InstanceInfo) :
  NoDup (map instances.Address (before ++ host :: after)) -> later ∈ after ->
  instances.Address host <> instances.Address later /\
  forall b, In b before -> instances.Address b <> instances.Address later.
Proof.
  rewrite map_app. cbn. intros (_ & Hdisj & Hrest)%NoDup_app Hlater.
  apply NoDup_cons in Hrest as [Hhost _].
  assert (Hin : instances.Address later ∈ map instances.Address after).
  { apply list_elem_of_In, in_map. by apply list_elem_of_In. }
  split.
  - intros Heq. apply Hhost. by rewrite Heq.
  - intros b Hb Heq. apply (Hdisj (instances.Address b)).
    + apply list_elem_of_In, in_map. exact Hb.
    + right. by rewrite Heq.
Qed.

(** In every run, the hosts that are configured are hosts that need it by
    the nodes that were listed. *)
Lemma pass_configures_needed (r : ConfigMapReconciler) (cm : core.ConfigMap)
    (delta : list Call) (res : Panic + option error)
    (ohosts : option (list instances.InstanceInfo)) :
  pass r cm delta res ohosts ->
  forall l1 nodes l2 host annotations cres,
    delta = l1 ++ CallList (inl nodes) :: l2 ->
    In (CallConfigureInstance host annotations cres) delta ->
    needsConfigure nodes host = true.
Proof.
  intros Hpass l1 nodes l2 host annotations cres Hsplit Hin.
  assert (Hlookup : forall lookups,
            Forall (fun c => isLookup c = true) lookups ->
            ~ In (CallConfigureInstance host annotations cres) lookups).
  { intros lookups Hl Hc. rewrite Forall_forall in Hl.
    by apply list_elem_of_In, Hl in Hc. }
  assert (Hconf : forall hosts,
            In (CallConfigureInstance host annotations cres)
               (map configured (List.filter (needsConfigure nodes) hosts)) ->
            needsConfigure nodes host = true).
  { intros hosts (b & [= -> _ _] & Hb)%in_map_iff. by apply filter_In in Hb as [_ Hb]. }
  assert (Hdec : forall ns,
            ~ In (CallConfigureInstance host annotations cres) (map deconfigured ns)).
  { by intros ns (b & [=] & _)%in_map_iff. }
  destruct Hpass.
  - exfalso. eapply (no_split isListing); [| |exact Hsplit]; [none_of|done].
  - exfalso. eapply (no_split isListing); [| |exact Hsplit]; [none_of|done].
  - cut_at isListing Hsplit Hl. discriminate Hl.
  - destruct Hin as [[=]|[]].
  - cut_at isListing Hsplit Hl. injection Hl as <-.
    member_cases Hin; try discriminate Hin. by apply Hlookup in Hin.
  - cut_at isListing Hsplit Hl. injection Hl as <-.
    member_cases Hin; try discriminate Hin.
    + by apply Hlookup in Hin.
    + by apply Hconf in Hin.
    + by injection Hin as -> _ _.
  - cut_at isListing Hsplit Hl. injection Hl as ->.
    member_cases Hin; try discriminate Hin.
    + by apply Hlookup in Hin.
    + by apply Hconf in Hin.
    + by apply Hdec in Hin.
  - cut_at isListing Hsplit Hl. injection Hl as <-.
    member_cases Hin; try discriminate Hin.
    + by apply Hlookup in Hin.
    + by apply Hconf in Hin.
    + by apply Hdec in Hin.
Qed.

(** A run with a Configure that failed is a run that returned from the
    loop over the hosts. *)
Lemma pass_failed_configure (r : ConfigMapReconciler) (cm : core.ConfigMap)
    (delta : list Call) (res : Panic + option error)
    (ohosts : option (list instances.InstanceInfo)) :
  pass r cm delta res ohosts ->
  forall l1 host annotations err l2,
    delta = l1 ++ CallConfigureInstance host annotations (Some err) :: l2 ->
    res = inr (Some (Wrapf (Wrap err "error configuring node")
                       ("error configuring host with address "
                        +:+ instances.Address host))) /\
    l2 = [setupFailure cm host] /\ annotations = configureAnnotations host /\
    exists before after nodes lookups,
      ohosts = Some (before ++ host :: after) /\
      Forall (fun c => isLookup c = true) lookups /\
      l1 = lookups ++ [CallList (inl nodes); CallSignerCreate (privateKey r) None]
           ++ map configured (List.filter (needsConfigure nodes) before).
Proof.
  intros Hpass l1 host annotations err l2 Hsplit.
  destruct Hpass;
    try (exfalso; eapply (no_split failedConfigure); [| |exact Hsplit]; [none_of|done]).
  rewrite !app_assoc in Hsplit. cut_at failedConfigure Hsplit Hl.
  injection Hl as -> -> ->. subst l1 l2.
  split; [done|]. split; [done|]. split; [done|].
  exists before, after, nodes, lookups. by rewrite <- !app_assoc.
Qed.

(** A run with a Deconfigure that failed is a run that returned from the
    loop over the nodes. *)
Lemma pass_failed_deconfigure (r : ConfigMapReconciler) (cm : core.ConfigMap)
    (delta : list Call) (res : Panic + option error)
    (ohosts : option (list instances.InstanceInfo)) :
  pass r cm delta res ohosts ->
  forall l1 node err l2,
    delta = l1 ++ CallDeconfigureInstance node (Some err) :: l2 ->
    res = inr (Some (Wrap (Wrapf err ("unable to deconfigure instance with node "
                                      +:+ client.GetName (core.NodeMeta node)))
                       "error removing undesired nodes from cluster")) /\
    l2 = [] /\
    exists hosts before after lookups,
      ohosts = Some hosts /\ stale hosts node = true /\
      Forall (fun c => isLookup c = true) lookups /\
      l1 = lookups
           ++ [CallList (inl {| core.Items := before ++ node :: after |});
               CallSignerCreate (privateKey r) None]
           ++ map configured
                (List.filter (needsConfigure {| core.Items := before ++ node :: after |}) hosts)
           ++ map deconfigured (List.filter (stale hosts) before).
Proof.
  intros Hpass l1 node err l2 Hsplit.
  destruct Hpass;
    try (exfalso; eapply (no_split failedDeconfigure); [| |exact Hsplit]; [none_of|done]).
  rewrite !app_assoc in Hsplit. cut_at failedDeconfigure Hsplit Hl.
  injection Hl as -> ->. subst l1 l2.
  split; [done|]. split; [done|].
  exists hosts, before, after, lookups. by rewrite <- !app_assoc.
Qed.

(** The calls of a run that returned from the loop over the hosts do not
    configure a host that comes later in the walk. *)
Lemma later_host_not_attempted (r : ConfigMapReconciler)
    (before after : list instances.InstanceInfo) (host later : instances.InstanceInfo)
    (nodes : core.NodeList) (lookups rest : list Call) (cres : option error) :
  NoDup (map instances.Address (before ++ host :: after)) -> later ∈ after ->
  Forall (fun c => isLookup c = true) lookups ->
  configureAttempted (instances.Address later) rest = false ->
  configureAttempted (instances.Address later)
    (lookups ++ [CallList (inl nodes); CallSignerCreate (privateKey r) None]
     ++ map configured (List.filter (needsConfigure nodes) before)
     ++ CallConfigureInstance host (configureAnnotations host) cres :: rest) = false.
Proof.
  intros Hnd Hlater Hlk Hrest.
  destruct (later_address_fresh _ _ _ _ Hnd Hlater) as [Hhost Hbefore].
  unfold configureAttempted in *. rewrite !existsb_app. cbn.
  rewrite Hrest, orb_false_r.
  replace (instances.Address host =? instances.Address later)%string with false
    by (symmetry; by apply String.eqb_neq).
  rewrite orb_false_r.
  apply orb_false_iff. split.
  - apply not_true_is_false. intros (c & Hc & Ht)%existsb_exists.
    rewrite Forall_forall in Hlk. apply list_elem_of_In, Hlk in Hc. by destruct c.
  - apply not_true_is_false. intros (c & Hc & Ht)%existsb_exists.
    apply in_map_iff in Hc as (b & <- & Hb). apply filter_In in Hb as [Hb _].
    cbn in Ht. apply String.eqb_eq in Ht. by apply (Hbefore b).
Qed.

(** C2. When, in a pass, a call that configures a host fails, the pass
    returns that error wrapped with the address of the host; after the call
    it has only recorded the warning event, so the nodes are not
    deconfigured and Prometheus is not configured; before the call it has
    configured, in the order of the walk and with success, the hosts before
    this one that needed it; and no host that comes after this one in the
    walk is configured. *)
Theorem configure_failure_aborts_pass
    (r : ConfigMapReconciler) (cm : core.ConfigMap) (s : State)
    (l1 l2 : list Call) (host : instances.InstanceInfo)
    (annotations : gmap string string) (err : error) :
  calls (final (reconcileNodes r cm s))
  = calls s ++ l1 ++ CallConfigureInstance host annotations (Some err) :: l2 ->
  result (reconcileNodes r cm s)
  = inr (Some (Wrapf (Wrap err "error configuring node")
                 ("error configuring host with address " +:+ instances.Address host))) /\
  l2 = [setupFailure cm host] /\
  exists s1 before after nodes lookups,
    parseHosts (core.Data cm) s = Done (before ++ host :: after, None) s1 /\
    Forall (fun c => isLookup c = true) lookups /\
    l1 = lookups ++ [CallList (inl nodes); CallSignerCreate (privateKey r) None]
         ++ map configured (List.filter (needsConfigure nodes) before) /\
    forall later, later ∈ after ->
      configureAttempted (instances.Address later)
        (l1 ++ CallConfigureInstance host annotations (Some err) :: l2) = false.
Proof.
  intros Hcalls.
  destruct (reconcileNodes_pass r cm s) as (delta & ohosts & Hd & Hpass & Hparse).
  rewrite Hcalls in Hd. apply app_inv_head in Hd. symmetry in Hd.
  apply pass_failed_configure with (1 := Hpass) in Hd
    as (Hres & -> & -> & before & after & nodes & lookups & -> & Hlk & ->).
  split; [exact Hres|]. split; [done|].
  destruct (Hparse _ eq_refl) as [s1 Hp].
  exists s1, before, after, nodes, lookups. repeat split; try done.
  intros later Hlater. rewrite <- !app_assoc.
  eapply later_host_not_attempted; eauto using parseHosts_NoDup.
Qed.

(** C3, as the code has it. When, in a pass, a call that deconfigures a
    node fails, the pass calls nothing after it and returns the error,
    wrapped with the name of the node; the node was stale, and before the
    call the pass has deconfigured, in the order of the listing and with
    success, the stale nodes listed before this one; the nodes listed after
    it are left as they are. *)
Theorem deconfigure_failure_stops_phase
    (r : ConfigMapReconciler) (cm : core.ConfigMap) (s : State)
    (l1 l2 : list Call) (node : core.Node) (err : error) :
  calls (final (reconcileNodes r cm s))
  = calls s ++ l1 ++ CallDeconfigureInstance node (Some err) :: l2 ->
  result (reconcileNodes r cm s)
  = inr (Some (Wrap (Wrapf err ("unable to deconfigure instance with node "
                                +:+ client.GetName (core.NodeMeta node)))
                 "error removing undesired nodes from cluster")) /\
  l2 = [] /\
  exists s1 hosts before after lookups,
    parseHosts (core.Data cm) s = Done (hosts, None) s1 /\
    stale hosts node = true /\
    Forall (fun c => isLookup c = true) lookups /\
    l1 = lookups
         ++ [CallList (inl {| core.Items := before ++ node :: after |});
             CallSignerCreate (privateKey r) None]
         ++ map configured
              (List.filter (needsConfigure {| core.Items := before ++ node :: after |}) hosts)
         ++ map deconfigured (List.filter (stale hosts) before).
Proof.
  intros Hcalls.
  destruct (reconcileNodes_pass r cm s) as (delta & ohosts & Hd & Hpass & Hparse).
  rewrite Hcalls in Hd. apply app_inv_head in Hd. symmetry in Hd.
  apply pass_failed_deconfigure with (1 := Hpass) in Hd
    as (Hres & -> & hosts & before & after & lookups & -> & Hstale & Hlk & ->).
  split; [exact Hres|]. split; [done|].
  destruct (Hparse _ eq_refl) as [s1 Hp].
  by exists s1, hosts, before, after, lookups.
Qed.

(** C4, as the code has it. A host is skipped when the first listed node
    that has its address carries the version annotation:
    [ensureInstanceIsConfigured] returns no error, calls nothing and leaves
    the state as it is; and in no pass whose listing returned these nodes is
    there a call that configures this host. *)
Theorem configured_member_is_skipped
    (nodes : core.NodeList) (host : instances.InstanceInfo) (node : core.Node) :
  findNode (instances.Address host) nodes = Some node ->
  is_Some (meta.Annotations (core.NodeMeta node) !! VersionAnnotation) ->
  (forall s : State, ensureInstanceIsConfigured host nodes s = Done None s) /\
  (forall (r : ConfigMapReconciler) (cm : core.ConfigMap) (s : State) l1 l2,
     calls (final (reconcileNodes r cm s)) = calls s ++ l1 ++ CallList (inl nodes) :: l2 ->
     forall annotations cres,
       ~ In (CallConfigureInstance host annotations cres) (l1 ++ CallList (inl nodes) :: l2)).
Proof.
  intros Hfind Hversion.
  pose proof (needsConfigure_false _ _ _ Hfind Hversion) as Hskip.
  split.
  - intros s. rewrite ensureInstanceIsConfigured_eq. by rewrite Hskip.
  - intros r cm s l1 l2 Hcalls annotations cres Hin.
    destruct (reconcileNodes_pass r cm s) as (delta & ohosts & Hd & Hpass & _).
    rewrite Hcalls in Hd. apply app_inv_head in Hd. symmetry in Hd.
    rewrite <- Hd in Hin.
    pose proof (pass_configures_needed _ _ _ _ _ Hpass _ _ _ _ _ _ Hd Hin). congruence.
Qed.

(** C7. When [parseHosts] returns no host and the listing returns no node
    whose BYOH annotation is "true", the pass returns no error and its only
    call is the listing: the signer is not created and the field keeps its
    value, no instance is configured or deconfigured, no event is recorded
    and Prometheus is not configured. *)
Theorem reconcileNodes_nothing_to_do
    (r : ConfigMapReconciler) (cm : core.ConfigMap) (s s1 : State)
    (nodes : core.NodeList) (w' : W) :
  parseHosts (core.Data cm) s = Done ([], None) s1 ->
  client_List (world s1) = (inl nodes, w') ->
  (forall node, node ∈ core.Items nodes ->
     client.GetAnnotations (core.NodeMeta node) !! BYOHAnnotation <> Some "true") ->
  reconcileNodes r cm s
  = Done None {| world := w'; signer := signer s;
                 calls := calls s ++ [CallList (inl nodes)] |}.
Proof.
  intros Hparse Hlist Hnone.
  pose proof Hparse as [_ ->]%parseHosts_nil.
  unfold reconcileNodes. unfold bind at 1. rewrite Hparse.
  unfold bind at 1, do_List. rewrite invoke_eq, Hlist. cbn [fst snd].
  rewrite filter_none; [done|].
  intros node Hin. apply not_true_is_false. rewrite isBYOH_true. by apply Hnone.
Qed.

End Claims.

(** ** The statements on the small cluster *)

Lemma configure_failure_aborts_pass_witness :
  result (reconcileNodes Sim.reconciler (Sim.instancesConfigMap Scenario.threeHosts)
            (Sim.start Scenario.unreachable))
  = inr (Some (Wrapf (Wrap (New "unable to connect to the instance") "error configuring node")
                 "error configuring host with address 10.0.0.5")) /\
  configureAttempted "10.0.0.6"
    (calls (final (reconcileNodes Sim.reconciler (Sim.instancesConfigMap Scenario.threeHosts)
                     (Sim.start Scenario.unreachable)))) = false.
Proof.
  pose proof (configure_failure_aborts_pass (N := GoNet)
                Sim.reconciler (Sim.instancesConfigMap Scenario.threeHosts)
                (Sim.start Scenario.unreachable)
                [CallList (inl {| core.Items := [] |});
                 CallSignerCreate (privateKey Sim.reconciler) None;
                 configured (instances.NewInstanceInfo "10.0.0.7" "ops" "")]
                [setupFailure (Sim.instancesConfigMap Scenario.threeHosts)
                   (instances.NewInstanceInfo "10.0.0.5" "admin" "")]
                (instances.NewInstanceInfo "10.0.0.5" "admin" "")
                (configureAnnotations (instances.NewInstanceInfo "10.0.0.5" "admin" ""))
                (New "unable to connect to the instance")) as H.
  destruct H as [Hres _]; [vm_compute; reflexivity|].
  split; [exact Hres|]. vm_compute. reflexivity.
Defined.

Lemma deconfigure_failure_stops_phase_witness :
  result (reconcileNodes (N := GoNet) Sim.reconciler (Sim.instancesConfigMap ∅)
            (Sim.start Scenario.stuck))
  = inr (Some (Wrap (Wrapf (New "unable to drain the node")
                       "unable to deconfigure instance with node m1")
                 "error removing undesired nodes from cluster")).
Proof.
  pose proof (deconfigure_failure_stops_phase (N := GoNet)
                Sim.reconciler (Sim.instancesConfigMap ∅) (Sim.start Scenario.stuck)
                [CallList (inl {| core.Items := [Scenario.m1; Scenario.m2] |});
                 CallSignerCreate (privateKey Sim.reconciler) None]
                [] Scenario.m1 (New "unable to drain the node")) as H.
  destruct H as [Hres _]; [vm_compute; reflexivity|]. exact Hres.
Defined.

(** C3, as it is stated, fails: of two stale nodes with different
    addresses, the first cannot be deconfigured, and the pass does not try
    the second. *)
Lemma deconfigure_not_attempted_after_failure :
  let run := reconcileNodes (N := GoNet) Sim.reconciler (Sim.instancesConfigMap ∅)
               (Sim.start Scenario.stuck) in
  stale [] Scenario.m1 = true /\ stale [] Scenario.m2 = true /\
  core.Addresses (core.Status Scenario.m1) <> core.Addresses (core.Status Scenario.m2) /\
  In (CallDeconfigureInstance Scenario.m1 (Some (New "unable to drain the node")))
     (calls (final run)) /\
  deconfigureAttempted Scenario.m2 (calls (final run)) = false.
Proof.
  cbv zeta. split; [by vm_compute|]. split; [by vm_compute|]. split; [discriminate|].
  split; [|by vm_compute].
  replace (calls (final (reconcileNodes (N := GoNet) Sim.reconciler
                           (Sim.instancesConfigMap ∅) (Sim.start Scenario.stuck))))
    with [CallList (inl {| core.Items := [Scenario.m1; Scenario.m2] |});
          CallSignerCreate (privateKey Sim.reconciler) None;
          CallDeconfigureInstance Scenario.m1 (Some (New "unable to drain the node"))]
    by (vm_compute; reflexivity).
  right. right. by left.
Qed.

Lemma configured_member_is_skipped_witness :
  ensureInstanceIsConfigured (instances.NewInstanceInfo "10.0.0.5" "admin" "")
    {| core.Items := [Scenario.fullyJoined] |}
    (Sim.start (Sim.cluster [Scenario.fullyJoined]))
  = Done None (Sim.start (Sim.cluster [Scenario.fullyJoined])).
Proof.
  refine (proj1 (configured_member_is_skipped (N := GoNet) (O := Sim.operator)
                   {| core.Items := [Scenario.fullyJoined] |}
                   (instances.NewInstanceInfo "10.0.0.5" "admin" "")
                   Scenario.fullyJoined _ _) _).
  - reflexivity.
  - exists "1". vm_compute. reflexivity.
Defined.

(** C4, as it is stated, fails: two nodes report the address of the host,
    the second one carries the version annotation, the first one listed does
    not, and the pass configures the host. *)
Lemma later_configured_member_not_skipped :
  let nodes := [Scenario.halfJoined; Scenario.fullyJoined] in
  let run := reconcileNodes (N := GoNet) Sim.reconciler
               (Sim.instancesConfigMap Scenario.oneHost) (Sim.start (Sim.cluster nodes)) in
  (exists node, In node nodes /\ hasAddress "10.0.0.5" node = true /\
                is_Some (meta.Annotations (core.NodeMeta node) !! VersionAnnotation)) /\
  Scenario.oneHost !! "10.0.0.5" = Some "username=admin" /\
  configureAttempted "10.0.0.5" (calls (final run)) = true.
Proof.
  cbv zeta. split; [|split; [by vm_compute|by vm_compute]].
  exists Scenario.fullyJoined. split; [right; by left|]. split; [by vm_compute|].
  exists "1". by vm_compute.
Qed.

Lemma reconcileNodes_nothing_to_do_witness :
  reconcileNodes (N := GoNet) Sim.reconciler (Sim.instancesConfigMap ∅)
    (Sim.start (Sim.cluster [Scenario.optedOut]))
  = Done None
         {| world := Sim.cluster [Scenario.optedOut]; signer := None;
            calls := [CallList (inl {| core.Items := [Scenario.optedOut] |})] |}.
Proof.
  apply (reconcileNodes_nothing_to_do (N := GoNet) Sim.reconciler (Sim.instancesConfigMap ∅)
           (Sim.start (Sim.cluster [Scenario.optedOut]))
           (Sim.start (Sim.cluster [Scenario.optedOut]))
           {| core.Items := [Scenario.optedOut] |} (Sim.cluster [Scenario.optedOut])).
  - vm_compute. reflexivity.
  - reflexivity.
  - intros node Hin. cbn in Hin. apply list_elem_of_singleton in Hin as ->.
    vm_compute. discriminate.
Defined.

(** C1. A node whose BYOH annotation is there with a value other than "true"
    is not one of the nodes [reconcileNodes] counts as BYOH nodes, and a
    pass with an empty record leaves it alone; yet a pass with one host in
    the record, which has none of its addresses, deconfigures it. *)
Theorem reconcileNodes_deconfigures_opted_out_node :
  let cluster := Sim.start (Sim.cluster [Scenario.optedOut]) in
  isBYOH Scenario.optedOut = false /\
  hasAssociatedInstance Scenario.optedOut
    [instances.NewInstanceInfo "10.0.0.5" "admin" ""] = false /\
  result (reconcileNodes (N := GoNet) Sim.reconciler
            (Sim.instancesConfigMap Scenario.oneHost) cluster) = inr None /\
  deconfigureAttempted Scenario.optedOut
    (calls (final (reconcileNodes (N := GoNet) Sim.reconciler
                     (Sim.instancesConfigMap Scenario.oneHost) cluster))) = true /\
  deconfigureAttempted Scenario.optedOut
    (calls (final (reconcileNodes (N := GoNet) Sim.reconciler
                     (Sim.instancesConfigMap ∅) cluster))) = false.
Proof. cbv zeta. repeat split; by vm_compute. Qed.

(** ** Further properties: looking up nodes *)

Lemma hasAddress_spec (address : string) (node : core.Node) :
  hasAddress address node = true <->
  exists nodeAddress,
    In nodeAddress (core.Addresses (core.Status node)) /\
    core.Address nodeAddress = address.
Proof.
  unfold hasAddress. rewrite existsb_exists. split.
  - intros (na & Hin & Heq%String.eqb_eq). by exists na.
  - intros (na & Hin & Heq). exists na. split; [done|]. by apply String.eqb_eq.
Qed.

Lemma find_first {A} (f : A -> bool) (l : list A) :
  match find f l with
  | Some x => exists before after,
                l = before ++ x :: after /\ f x = true /\
                Forall (fun y => f y = false) before
  | None => Forall (fun y => f y = false) l
  end.
Proof.
  induction l as [|y l IH]; cbn; [constructor|].
  destruct (f y) eqn:Hy.
  - exists [], l. repeat split; [done|constructor].
  - destruct (find f l) as [x|].
    + destruct IH as (before & after & -> & Hx & Hb).
      exists (y :: before), after. repeat split; [done|by constructor].
    + by constructor.
Qed.

(** [findNode] returns the first node of the list one of whose addresses is
    the given address, and no node exactly when no node has the address; a
    node with several addresses is found by any one of them. *)
Theorem findNode_first (address : string) (nodes : core.NodeList) :
  (forall node,
     findNode address nodes = Some node ->
     (exists nodeAddress,
        In nodeAddress (core.Addresses (core.Status node)) /\
        core.Address nodeAddress = address) /\
     exists before after,
       core.Items nodes = before ++ node :: after /\
       Forall (fun n => hasAddress address n = false) before) /\
  (findNode address nodes = None <->
   forall node, In node (core.Items nodes) -> hasAddress address node = false) /\
  (forall node,
     In node (core.Items nodes) -> hasAddress address node = true ->
     exists found, findNode address nodes = Some found).
Proof.
  unfold findNode. pose proof (find_first (hasAddress address) (core.Items nodes)) as Hf.
  split; [|split].
  - intros node Hn. rewrite Hn in Hf. destruct Hf as (before & after & Hl & Hx & Hb).
    split; [by apply hasAddress_spec|]. by exists before, after.
  - split.
    + intros Hn. rewrite Hn in Hf. rewrite Forall_forall in Hf.
      intros node Hin. by apply Hf, list_elem_of_In.
    + intros Hall. destruct (find _ _) as [x|] eqn:Hx; [|done].
      apply find_some in Hx as [Hin Hx]. rewrite (Hall x Hin) in Hx. done.
  - intros node Hin Hx. destruct (find _ _) as [found|] eqn:Hfound; [by exists found|].
    rewrite Forall_forall in Hf. apply list_elem_of_In, Hf in Hin. congruence.
Qed.

Lemma findNode_first_witness :
  (exists nodeAddress,
     In nodeAddress (core.Addresses (core.Status Scenario.halfJoined)) /\
     core.Address nodeAddress = "10.0.0.5") /\
  exists before after,
    [Scenario.m1; Scenario.halfJoined; Scenario.fullyJoined]
    = before ++ Scenario.halfJoined :: after /\
    Forall (fun n => hasAddress "10.0.0.5" n = false) before.
Proof.
  apply (proj1 (findNode_first "10.0.0.5"
                  {| core.Items := [Scenario.m1; Scenario.halfJoined; Scenario.fullyJoined] |})
           Scenario.halfJoined).
  reflexivity.
Defined.

Lemma hasAssociatedInstance_spec (node : core.Node) (hosts : list instances.InstanceInfo) :
  hasAssociatedInstance node hosts = true <->
  exists host, In host hosts /\ hasAddress (instances.Address host) node = true.
Proof. unfold hasAssociatedInstance. apply existsb_exists. Qed.

(** The node [findNode] returns for the address of a host of the list is
    associated with an instance of the list: the two lookups agree, and the
    node is not stale. *)
Theorem found_node_is_associated (nodes : core.NodeList)
    (hosts : list instances.InstanceInfo) (host : instances.InstanceInfo) (node : core.Node) :
  In host hosts -> findNode (instances.Address host) nodes = Some node ->
  hasAssociatedInstance node hosts = true /\ stale hosts node = false.
Proof.
  intros Hin Hfind. apply find_some in Hfind as [_ Haddr].
  assert (Ha : hasAssociatedInstance node hosts = true).
  { apply hasAssociatedInstance_spec. by exists host. }
  split; [exact Ha|]. unfold stale. rewrite Ha. apply andb_false_r.
Qed.

Lemma found_node_is_associated_witness :
  hasAssociatedInstance Scenario.fullyJoined
    [instances.NewInstanceInfo "10.0.0.7" "ops" ""; instances.NewInstanceInfo "10.0.0.5" "admin" ""]
  = true /\
  stale [instances.NewInstanceInfo "10.0.0.7" "ops" ""; instances.NewInstanceInfo "10.0.0.5" "admin" ""]
    Scenario.fullyJoined = false.
Proof.
  apply (found_node_is_associated
           {| core.Items := [Scenario.m1; Scenario.fullyJoined] |}
           _ (instances.NewInstanceInfo "10.0.0.5" "admin" "")).
  - right. by left.
  - reflexivity.
Defined.

(** ** Further properties: the walk through the record *)

Section Walk.

Context `{N : Net} {W : Type} `{O : Operator W}.

Lemma lookupTargets_app (l1 l2 : list Call) :
  lookupTargets (l1 ++ l2) = lookupTargets l1 ++ lookupTargets l2.
Proof. apply omap_app. Qed.

(** Validating an address resolves it once if it is not an IP literal, and
    calls nothing if it is one. *)
Lemma validateAddress_lookups (address : string) (s : State) :
  exists err s' lk,
    validateAddress address s = Done err s' /\ calls s' = calls s ++ lk /\
    lookupTargets lk = if needsLookup address then [address] else [].
Proof.
  unfold validateAddress, needsLookup. destruct (ParseIP address) as [ip|].
  - destruct (To4 ip); eexists _, s, []; by rewrite app_nil_r.
  - unfold bind, do_LookupHost. rewrite invoke_eq.
    destruct (net_LookupHost address (world s)) as [[l|err] w]; cbn.
    + destruct (length l =? 0); by eexists _, _, [_].
    + by eexists _, _, [_].
Qed.

Lemma filter_needsLookup_snoc (keys : list string) (a : string) :
  List.filter needsLookup (keys ++ [a])
  = List.filter needsLookup keys ++ (if needsLookup a then [a] else []).
Proof. rewrite List.filter_app. cbn. by destruct (needsLookup a). Qed.

(** The walk of [parseHosts], entry by entry: where it stops, what it has
    resolved until then, and what it returns. *)
Lemma parseHosts_range_walk (entries : list (string * string))
    (hosts : list instances.InstanceInfo) (s : State)
    (out : Outcome (list instances.InstanceInfo * option error)) :
  parseHosts_range entries hosts s = out ->
  exists lk,
    calls (final out) = calls s ++ lk /\
    match out with
    | Done (hs, None) _ =>
        hs = hosts ++ map toInstance entries /\
        lookupTargets lk = List.filter needsLookup (map fst entries)
    | Done (hs, Some err) _ =>
        exists before a d after,
          entries = before ++ (a, d) :: after /\
          Forall (fun e => wellFormedValue e.2) before /\
          lookupTargets lk = List.filter needsLookup (map fst before ++ [a]) /\
          ((exists cause (s1 s2 : State),
              validateAddress a s1 = Done (Some cause) s2 /\
              err = Wrapf cause ("invalid address " +:+ a) /\ hs = []) \/
           (~ wellFormedValue d /\ d <> "username" /\
            err = Errorf ("data for entry " +:+ a +:+ " has an incorrect format") /\
            hs = hosts ++ map toInstance before))
    | Panicked p _ =>
        exists before a after,
          entries = before ++ (a, "username") :: after /\
          Forall (fun e => wellFormedValue e.2) before /\
          lookupTargets lk = List.filter needsLookup (map fst before ++ [a]) /\
          p = IndexOutOfRange 1 1
    end.
Proof.
  revert hosts s out. induction entries as [|[a d] entries IH]; intros hosts s out Hout.
  - cbn in Hout. unfold ret in Hout. subst out. exists []. cbn.
    by rewrite !app_nil_r.
  - cbn [parseHosts_range] in Hout. unfold bind at 1 in Hout.
    destruct (validateAddress_lookups a s) as (verr & s1 & lk & Hv & Hcalls & Hlk).
    rewrite Hv in Hout. destruct verr as [cause|].
    { unfold ret in Hout. subst out. exists lk. cbn. split; [done|].
      exists [], a, d, entries. cbn. repeat split; [constructor|by destruct (needsLookup a)|].
      left. by exists cause, s, s1. }
    assert (Hstop : forall hs err,
      out = Done (hs, Some err) s1 -> ~ wellFormedValue d -> d <> "username" ->
      err = Errorf ("data for entry " +:+ a +:+ " has an incorrect format") -> hs = hosts ->
      exists lk0,
        calls (final out) = calls s ++ lk0 /\
        exists before a0 d0 after,
          (a, d) :: entries = before ++ (a0, d0) :: after /\
          Forall (fun e => wellFormedValue e.2) before /\
          lookupTargets lk0 = List.filter needsLookup (map fst before ++ [a0]) /\
          ((exists cause (s1 s2 : State),
              validateAddress a0 s1 = Done (Some cause) s2 /\
              err = Wrapf cause ("invalid address " +:+ a0) /\ hs = []) \/
           (~ wellFormedValue d0 /\ d0 <> "username" /\
            err = Errorf ("data for entry " +:+ a0 +:+ " has an incorrect format") /\
            hs = hosts ++ map toInstance before))).
    { intros hs err -> Hnwf Hne -> ->. exists lk. cbn. split; [done|].
      exists [], a, d, entries. cbn.
      repeat split; [constructor|by destruct (needsLookup a)|].
      right. by rewrite app_nil_r. }
    destruct (SplitN_shape d) as [Hs|(first & name & Hs)]; rewrite Hs in Hout; cbn in Hout.
    + unfold bind, index in Hout. cbn in Hout.
      destruct (String.eqb_spec d "username") as [->|Hne]; cbn in Hout.
      * unfold panic in Hout. subst out. exists lk. cbn. split; [done|].
        exists [], a, entries. cbn. repeat split; [constructor|by destruct (needsLookup a)].
      * unfold ret in Hout. subst out. eapply Hstop; try done.
        intros [name ->]. by rewrite SplitN_wellFormed in Hs.
    + unfold bind, index in Hout. cbn in Hout.
      destruct (String.eqb_spec first "username") as [->|Hne]; cbn in Hout.
      * apply SplitN_username_inv in Hs as ->.
        apply IH in Hout as (lk' & IHcalls & IHres).
        exists (lk ++ lk'). split; [by rewrite IHcalls, Hcalls, <- app_assoc|].
        rewrite lookupTargets_app, Hlk.
        assert (Hwf : wellFormedValue ("username=" +:+ name)) by (by exists name).
        destruct out as [[hs [err|]] s2|p s2].
        -- destruct IHres as (before & a0 & d0 & after & -> & Hb & Hl & Hor).
           exists ((a, "username=" +:+ name) :: before), a0, d0, after.
           split; [done|]. split; [by constructor|]. split.
           { rewrite Hl. cbn. by destruct (needsLookup a). }
           destruct Hor as [Hor|(? & ? & ? & ->)]; [by left|right].
           repeat split; try done. cbn. by rewrite <- app_assoc.
        -- destruct IHres as [-> Hl]. split; [by rewrite <- app_assoc|].
           rewrite Hl. cbn. by destruct (needsLookup a).
        -- destruct IHres as (before & a0 & after & -> & Hb & Hl & ->).
           exists ((a, "username=" +:+ name) :: before), a0, after.
           split; [done|]. split; [by constructor|]. split; [|done].
           rewrite Hl. cbn. by destruct (needsLookup a).
      * unfold ret in Hout. subst out. eapply Hstop; try done.
        -- intros [name' ->]. rewrite SplitN_wellFormed in Hs. congruence.
        -- intros ->. by rewrite SplitN_2 in Hs.
Qed.

Lemma parseLog_eq (m : gmap string string) (s : State) (lk : list Call) :
  calls (final (parseHosts m s)) = calls s ++ lk -> parseLog m s = lk.
Proof. intros H. unfold parseLog. rewrite H. apply drop_app_length. Qed.

Lemma toInstance_wellFormed (a name : string) :
  toInstance (a, "username=" +:+ name) = instances.NewInstanceInfo a name "".
Proof. reflexivity. Qed.

(** When [parseHosts] returns no error, its hosts are the record: one host
    per entry, the host of address [a] and user [u] being there exactly when
    the record maps [a] to [username=u]; the third component of each host is
    empty, and no two hosts have the same address. *)
Theorem parseHosts_hosts_of_record (m : gmap string string) (s s' : State)
    (hosts : list instances.InstanceInfo) :
  parseHosts m s = Done (hosts, None) s' ->
  length hosts = size m /\
  (forall a u, In (instances.NewInstanceInfo a u "") hosts
               <-> m !! a = Some ("username=" +:+ u)) /\
  (forall h, In h hosts -> instances.Credential h = "") /\
  NoDup (map instances.Address hosts).
Proof.
  intros Hrun. pose proof (parseHosts_NoDup _ _ _ _ Hrun) as Hnd.
  unfold parseHosts in Hrun.
  apply parseHosts_range_run in Hrun as (_ & _ & [-> Hall]). cbn in *.
  rewrite Forall_forall in Hall.
  split; [|split; [|split]]; [| | |exact Hnd].
  - rewrite length_map, (mapRange_perm m (world s)). apply length_map_to_list.
  - intros a u. rewrite in_map_iff. split.
    + intros ([a' d] & Heq & Hin). apply list_elem_of_In in Hin.
      destruct (Hall _ Hin) as [[name Hd] _]. cbn in Hd. subst d.
      rewrite toInstance_wellFormed in Heq.
      injection Heq as -> ->. by apply elem_of_mapRange in Hin.
    + intros Hin. apply elem_of_mapRange with (w := world s) in Hin.
      exists (a, "username=" +:+ u). split; [done|]. by apply list_elem_of_In.
  - intros h ([a d] & <- & _)%in_map_iff. done.
Qed.

(** When [parseHosts] returns no error it has resolved, once each and in the
    order of the walk, the keys that are not IP literals, and no other
    address. *)
Theorem parseHosts_resolves_names (m : gmap string string) (s s' : State)
    (hosts : list instances.InstanceInfo) :
  parseHosts m s = Done (hosts, None) s' ->
  lookupTargets (parseLog m s)
  = List.filter needsLookup (map fst (mapRange m (world s))) /\
  NoDup (lookupTargets (parseLog m s)) /\
  (forall a, In a (lookupTargets (parseLog m s))
             <-> is_Some (m !! a) /\ ParseIP a = None).
Proof.
  intros Hrun. unfold parseHosts in Hrun.
  pose proof Hrun as (lk & Hcalls & _ & Hlk)%parseHosts_range_walk.
  cbn in Hcalls.
  assert (Hlog : parseLog m s = lk).
  { apply parseLog_eq. unfold parseHosts. by rewrite Hrun. }
  rewrite Hlog, Hlk. split; [done|].
  assert (Hkeys : NoDup (map fst (mapRange m (world s)))).
  { change (NoDup ((mapRange m (world s)).*1)).
    rewrite (mapRange_perm m (world s)). apply NoDup_fst_map_to_list. }
  split.
  - apply NoDup_ListNoDup, List.NoDup_filter, NoDup_ListNoDup, Hkeys.
  - intros a. rewrite filter_In, in_map_iff. unfold needsLookup. split.
    + intros [([a' d] & <- & Hin) Hp]. cbn in *.
      apply list_elem_of_In, elem_of_mapRange in Hin.
      split; [by exists d|]. by destruct (ParseIP a').
    + intros [[d Hd] Hp]. rewrite Hp. split; [|done].
      exists (a, d). split; [done|]. by apply list_elem_of_In, elem_of_mapRange.
Qed.

(** When [parseHosts] returns an error, the error is about the first entry
    of the walk that is at fault: the entries before it read
    [username=<name>], no key after it is resolved, and nothing is resolved
    for it if it is an IP literal. For a key that fails validation the hosts
    returned are nil; for a value of another form they are the hosts of the
    entries walked before. *)
Theorem parseHosts_first_offender (m : gmap string string) (s s' : State)
    (hosts : list instances.InstanceInfo) (err : error) :
  parseHosts m s = Done (hosts, Some err) s' ->
  exists before a d after,
    mapRange m (world s) = before ++ (a, d) :: after /\
    m !! a = Some d /\
    Forall (fun e => wellFormedValue e.2) before /\
    lookupTargets (parseLog m s) = List.filter needsLookup (map fst before ++ [a]) /\
    ((exists cause (s1 s2 : State),
        validateAddress a s1 = Done (Some cause) s2 /\
        err = Wrapf cause ("invalid address " +:+ a) /\ hosts = []) \/
     (~ wellFormedValue d /\ d <> "username" /\
      err = Errorf ("data for entry " +:+ a +:+ " has an incorrect format") /\
      hosts = map toInstance before)).
Proof.
  intros Hrun. unfold parseHosts in Hrun.
  pose proof Hrun as (lk & Hcalls & before & a & d & after & Hwalk & Hb & Hlk & Hor)
                       %parseHosts_range_walk.
  cbn in Hcalls.
  assert (Hlog : parseLog m s = lk).
  { apply parseLog_eq. unfold parseHosts. by rewrite Hrun. }
  exists before, a, d, after. rewrite Hlog.
  split; [done|]. split; [|done].
  apply elem_of_mapRange with (w := world s). rewrite Hwalk.
  apply list_elem_of_In, in_app_iff. right. by left.
Qed.

(** [parseHosts] panics only with an index out of range, on the first entry
    of the walk at fault, and that entry has the value "username". *)
Theorem parseHosts_panics_on_bare_username (m : gmap string string) (s : State) (p : Panic) :
  result (parseHosts m s) = inl p ->
  p = IndexOutOfRange 1 1 /\
  exists before a after,
    mapRange m (world s) = before ++ (a, "username") :: after /\
    m !! a = Some "username" /\
    Forall (fun e => wellFormedValue e.2) before.
Proof.
  intros Hres. unfold parseHosts in *.
  destruct (parseHosts_range (mapRange m (world s)) [] s) as [[hs oerr] s1|p' s1] eqn:Hrun;
    [done|].
  injection Hres as ->.
  apply parseHosts_range_walk in Hrun
    as (lk & _ & before & a & after & Hwalk & Hb & _ & ->).
  split; [done|]. exists before, a, after. split; [done|]. split; [|done].
  apply elem_of_mapRange with (w := world s). rewrite Hwalk.
  apply list_elem_of_In, in_app_iff. right. by left.
Qed.

End Walk.

Lemma parseHosts_hosts_of_record_witness :
  length [instances.NewInstanceInfo "10.0.0.7" "ops" "";
          instances.NewInstanceInfo "10.0.0.5" "admin" "";
          instances.NewInstanceInfo "10.0.0.6" "core" ""]
  = size Scenario.threeHosts.
Proof.
  assert (H : parseHosts (N := GoNet) Scenario.threeHosts (Sim.start (Sim.cluster []))
              = Done ([instances.NewInstanceInfo "10.0.0.7" "ops" "";
                       instances.NewInstanceInfo "10.0.0.5" "admin" "";
                       instances.NewInstanceInfo "10.0.0.6" "core" ""], None)
                     (Sim.start (Sim.cluster []))) by reflexivity.
  exact (proj1 (parseHosts_hosts_of_record _ _ _ _ H)).
Defined.

Lemma parseHosts_resolves_names_witness :
  lookupTargets
    (parseLog (N := GoNet)
       Cases.named
       (Sim.start Scenario.resolving))
  = List.filter (needsLookup (N := GoNet))
      (map fst (mapRange
                  Cases.named
                  (world (Sim.start Scenario.resolving)))).
Proof.
  assert (H : parseHosts (N := GoNet)
                Cases.named
                (Sim.start Scenario.resolving)
              = Done ([instances.NewInstanceInfo "winhost.example.com" "admin" "";
                       instances.NewInstanceInfo "10.0.0.5" "core" ""], None)
                     {| world := Scenario.resolving; signer := None;
                        calls := [CallLookupHost "winhost.example.com" (inl ["10.0.0.8"])] |})
    by reflexivity.
  exact (proj1 (parseHosts_resolves_names _ _ _ _ H)).
Defined.

Lemma parseHosts_first_offender_witness :
  exists before a d after,
    mapRange Cases.malformed (world (Sim.start (Sim.cluster [])))
    = before ++ (a, d) :: after /\
    Cases.malformed !! a = Some d.
Proof.
  assert (H : parseHosts (N := GoNet)
                Cases.malformed (Sim.start (Sim.cluster []))
              = Done ([instances.NewInstanceInfo "10.0.0.7" "ops" "";
                       instances.NewInstanceInfo "10.0.0.5" "admin" ""],
                      Some (New "data for entry 10.0.0.6 has an incorrect format"))
                     (Sim.start (Sim.cluster []))) by reflexivity.
  destruct (parseHosts_first_offender _ _ _ _ _ H)
    as (before & a & d & after & Hwalk & Hin & _).
  exists before, a, d, after. exact (conj Hwalk Hin).
Defined.

Lemma parseHosts_panics_on_bare_username_witness :
  exists before a after,
    mapRange Cases.bare (world (Sim.start (Sim.cluster [])))
    = before ++ (a, "username") :: after.
Proof.
  assert (H : result (parseHosts (N := GoNet) Cases.bare
                        (Sim.start (Sim.cluster [])))
              = inl (IndexOutOfRange 1 1)) by reflexivity.
  destruct (parseHosts_panics_on_bare_username _ _ _ H)
    as (_ & before & a & after & Hwalk & _).
  exists before, a, after. exact Hwalk.
Defined.

(** ** Further properties: the calls of one pass *)

Section PassLogs.

Context `{N : Net} {W : Type} `{O : Operator W}.

Lemma pass_of_log (r : ConfigMapReconciler) (cm : core.ConfigMap) (s : State) :
  calls (final (reconcileNodes r cm s)) = calls s ++ passLog r cm s /\
  exists ohosts,
    pass r cm (passLog r cm s) (result (reconcileNodes r cm s)) ohosts /\
    forall hosts, ohosts = Some hosts ->
      exists s1, parseHosts (core.Data cm) s = Done (hosts, None) s1.
Proof.
  destruct (reconcileNodes_pass r cm s) as (delta & ohosts & Hd & Hpass & Hparse).
  assert (Hlog : passLog r cm s = delta).
  { unfold passLog. rewrite Hd. apply drop_app_length. }
  rewrite Hlog. split; [done|]. by exists ohosts.
Qed.

Lemma configureTargets_app (l1 l2 : list Call) :
  configureTargets (l1 ++ l2) = configureTargets l1 ++ configureTargets l2.
Proof. apply omap_app. Qed.

Lemma deconfigureTargets_app (l1 l2 : list Call) :
  deconfigureTargets (l1 ++ l2) = deconfigureTargets l1 ++ deconfigureTargets l2.
Proof. apply omap_app. Qed.

Lemma configureTargets_lookups (lookups : list Call) :
  Forall (fun c => isLookup c = true) lookups -> configureTargets lookups = [].
Proof.
  induction 1 as [|c l Hc _ IH]; [done|]. destruct c; try discriminate Hc. exact IH.
Qed.

Lemma deconfigureTargets_lookups (lookups : list Call) :
  Forall (fun c => isLookup c = true) lookups -> deconfigureTargets lookups = [].
Proof.
  induction 1 as [|c l Hc _ IH]; [done|]. destruct c; try discriminate Hc. exact IH.
Qed.

Lemma configureTargets_configured (hosts : list instances.InstanceInfo) :
  configureTargets (map configured hosts) = hosts.
Proof. induction hosts as [|h l IH]; [done|]. cbn. f_equal. exact IH. Qed.

Lemma deconfigureTargets_configured (hosts : list instances.InstanceInfo) :
  deconfigureTargets (map configured hosts) = [].
Proof. induction hosts as [|h l IH]; [done|]. exact IH. Qed.

Lemma configureTargets_deconfigured (nodes : list core.Node) :
  configureTargets (map deconfigured nodes) = [].
Proof. induction nodes as [|n l IH]; [done|]. exact IH. Qed.

Lemma deconfigureTargets_deconfigured (nodes : list core.Node) :
  deconfigureTargets (map deconfigured nodes) = nodes.
Proof. induction nodes as [|n l IH]; [done|]. cbn. f_equal. exact IH. Qed.

End PassLogs.

(** Computes the targets of a log given as a concatenation of pieces. *)
Ltac targets :=
  rewrite ?configureTargets_app, ?deconfigureTargets_app;
  rewrite ?configureTargets_configured, ?deconfigureTargets_configured,
    ?configureTargets_deconfigured, ?deconfigureTargets_deconfigured;
  repeat match goal with
         | H : Forall (fun c => isLookup c = true) ?lk |- _ =>
             first [ rewrite (configureTargets_lookups lk H)
                   | rewrite (deconfigureTargets_lookups lk H) ]
         end;
  cbn [configureTargets deconfigureTargets omap list_omap];
  rewrite ?app_nil_l, ?app_nil_r.

Section PassTargets.

Context `{N : Net} {W : Type} `{O : Operator W}.

Lemma filter_sublist {A} (f : A -> bool) (l : list A) : List.filter f l `sublist_of` l.
Proof.
  induction l as [|x l IH]; cbn; [constructor|].
  destruct (f x); by constructor.
Qed.


(** In a run whose listing returned [nodes] and whose hosts were parsed, the
    instances configured are the first of the hosts that need it, and the
    nodes deconfigured the first of the stale nodes; a node is deconfigured
    only after all the hosts that need it were configured, with success. *)
Lemma pass_targets (r : ConfigMapReconciler) (cm : core.ConfigMap)
    (delta : list Call) (res : Panic + option error)
    (ohosts : option (list instances.InstanceInfo)) :
  pass r cm delta res ohosts ->
  forall l1 nodes l2 hosts,
    delta = l1 ++ CallList (inl nodes) :: l2 -> ohosts = Some hosts ->
    configureTargets delta `prefix_of` List.filter (needsConfigure nodes) hosts /\
    deconfigureTargets delta `prefix_of` List.filter (stale hosts) (core.Items nodes) /\
    (deconfigureTargets delta <> [] ->
     configureTargets delta = List.filter (needsConfigure nodes) hosts /\
     Forall (fun c => failedConfigure c = false) delta) /\
    (forall i annotations cres,
       In (CallConfigureInstance i annotations cres) delta ->
       annotations = configureAnnotations i).
Proof.
  intros Hpass l1 nodes l2 hosts0 Hsplit Hhosts.
  destruct Hpass; try discriminate Hhosts; injection Hhosts as <-.
  - cut_at isListing Hsplit Hl. discriminate Hl.
  - cbn. repeat split; try apply prefix_nil; try done. by intros ? ? ? [[=]|[]].
  - cut_at isListing Hsplit Hl. injection Hl as <-.
    targets. repeat split; try apply prefix_nil; try done.
    intros i ann cres Hin. member_cases Hin; try discriminate Hin.
    rewrite Forall_forall in H. by apply list_elem_of_In, H in Hin.
  - cut_at isListing Hsplit Hl. injection Hl as <-.
    targets. repeat split; try apply prefix_nil; try done.
    + rewrite List.filter_app. cbn. rewrite H0.
      exists (List.filter (needsConfigure nodes) after). by rewrite <- app_assoc.
    + intros i ann cres Hin. member_cases Hin; try discriminate Hin.
      * rewrite Forall_forall in H. by apply list_elem_of_In, H in Hin.
      * by apply in_map_iff in Hin as (b & [= -> <- _] & _).
      * by injection Hin as -> <- _.
  - cut_at isListing Hsplit Hl. injection Hl as ->.
    targets. repeat split; try done.
    + cbn. rewrite List.filter_app. cbn. rewrite H0.
      exists (List.filter (stale hosts) after). by rewrite <- app_assoc.
    + none_of.
    + intros i ann cres Hin. member_cases Hin; try discriminate Hin.
      * rewrite Forall_forall in H. by apply list_elem_of_In, H in Hin.
      * by apply in_map_iff in Hin as (b & [= -> <- _] & _).
      * by apply in_map_iff in Hin as (b & [=] & _).
  - cut_at isListing Hsplit Hl. injection Hl as <-.
    targets. repeat split; try done.
    + none_of.
    + intros i ann cres Hin. member_cases Hin; try discriminate Hin.
      * rewrite Forall_forall in H. by apply list_elem_of_In, H in Hin.
      * by apply in_map_iff in Hin as (b & [= -> <- _] & _).
      * by apply in_map_iff in Hin as (b & [=] & _).
Qed.

End PassTargets.

Section PassProperties.

Context `{N : Net} {W : Type} `{O : Operator W}.

Lemma pass_hosts (r : ConfigMapReconciler) (cm : core.ConfigMap)
    (delta : list Call) (res : Panic + option error)
    (ohosts : option (list instances.InstanceInfo)) :
  pass r cm delta res ohosts ->
  forall l1 nodes l2, delta = l1 ++ CallList (inl nodes) :: l2 ->
  exists hosts, ohosts = Some hosts.
Proof.
  intros Hpass l1 nodes l2 Hsplit.
  destruct Hpass;
    first [ by eexists
          | exfalso; eapply (no_split isListing); [| |exact Hsplit]; [none_of|done] ].
Qed.

(** The hypotheses the statements about one pass share: the hosts were
    parsed and the listing returned [nodes]. *)
Lemma pass_with_listing (r : ConfigMapReconciler) (cm : core.ConfigMap) (s s1 : State)
    (hosts : list instances.InstanceInfo) (l1 l2 : list Call) (nodes : core.NodeList) :
  parseHosts (core.Data cm) s = Done (hosts, None) s1 ->
  passLog r cm s = l1 ++ CallList (inl nodes) :: l2 ->
  pass r cm (passLog r cm s) (result (reconcileNodes r cm s)) (Some hosts).
Proof.
  intros Hparse Hsplit.
  destruct (pass_of_log r cm s) as (_ & ohosts & Hpass & Hhosts).
  destruct (pass_hosts _ _ _ _ _ Hpass _ _ _ Hsplit) as [hosts' ->].
  destruct (Hhosts _ eq_refl) as [s1' Hparse']. congruence.
Qed.

Lemma prefix_is_sublist {A} (l k : list A) : l `prefix_of` k -> l `sublist_of` k.
Proof. intros [x ->]. by apply sublist_inserts_r. Qed.

Lemma In_configureTargets (log : list Call) (i : instances.InstanceInfo)
    (annotations : gmap string string) (cres : option error) :
  In (CallConfigureInstance i annotations cres) log -> In i (configureTargets log).
Proof.
  intros Hin. apply list_elem_of_In, list_elem_of_omap.
  exists (CallConfigureInstance i annotations cres). split; [|done].
  by apply list_elem_of_In.
Qed.

(** In a pass, the instances configured are, in the order of the walk, the
    first of the parsed hosts that need it by the nodes listed (all of them
    unless the pass stopped): each is a host of the record, is configured
    with the BYOH annotation "true" and its user name, and no address is
    configured twice. *)
Theorem configured_hosts_are_a_prefix
    (r : ConfigMapReconciler) (cm : core.ConfigMap) (s s1 : State)
    (hosts : list instances.InstanceInfo) (l1 l2 : list Call) (nodes : core.NodeList) :
  parseHosts (core.Data cm) s = Done (hosts, None) s1 ->
  passLog r cm s = l1 ++ CallList (inl nodes) :: l2 ->
  configureTargets (passLog r cm s) `prefix_of` List.filter (needsConfigure nodes) hosts /\
  (forall i annotations cres,
     In (CallConfigureInstance i annotations cres) (passLog r cm s) ->
     In i hosts /\ needsConfigure nodes i = true /\
     annotations = {[ BYOHAnnotation := "true"; UsernameAnnotation := instances.Username i ]}) /\
  NoDup (map instances.Address (configureTargets (passLog r cm s))).
Proof.
  intros Hparse Hsplit.
  pose proof (pass_with_listing _ _ _ _ _ _ _ _ Hparse Hsplit) as Hpass.
  destruct (pass_targets _ _ _ _ _ Hpass _ _ _ _ Hsplit eq_refl) as (Hc & _ & _ & Hann).
  split; [exact Hc|]. split.
  - intros i ann cres Hin. rewrite (Hann _ _ _ Hin).
    apply In_configureTargets, list_elem_of_In in Hin.
    apply (elem_of_prefix _ _ _ Hin), list_elem_of_In, filter_In in Hc. by destruct Hc.
  - apply (sublist_NoDup _ (map instances.Address hosts));
      [by eapply parseHosts_NoDup|].
    change (instances.Address <$> configureTargets (passLog r cm s)
            `sublist_of` instances.Address <$> hosts).
    apply fmap_sublist. etrans; [by apply prefix_is_sublist|apply filter_sublist].
Qed.

(** In a pass, the nodes deconfigured are, in the order of the listing, the
    first of the stale nodes (all of them unless the pass stopped): each was
    listed, carries the BYOH annotation and has no address of a parsed host;
    and a node is deconfigured only after every host that needs it was
    configured with success. *)
Theorem deconfigured_nodes_are_a_prefix
    (r : ConfigMapReconciler) (cm : core.ConfigMap) (s s1 : State)
    (hosts : list instances.InstanceInfo) (l1 l2 : list Call) (nodes : core.NodeList) :
  parseHosts (core.Data cm) s = Done (hosts, None) s1 ->
  passLog r cm s = l1 ++ CallList (inl nodes) :: l2 ->
  deconfigureTargets (passLog r cm s) `prefix_of` List.filter (stale hosts) (core.Items nodes) /\
  (forall node,
     In node (deconfigureTargets (passLog r cm s)) ->
     In node (core.Items nodes) /\ annotatedBYOH node = true /\
     hasAssociatedInstance node hosts = false) /\
  (deconfigureTargets (passLog r cm s) <> [] ->
   configureTargets (passLog r cm s) = List.filter (needsConfigure nodes) hosts /\
   Forall (fun c => failedConfigure c = false) (passLog r cm s)).
Proof.
  intros Hparse Hsplit.
  pose proof (pass_with_listing _ _ _ _ _ _ _ _ Hparse Hsplit) as Hpass.
  destruct (pass_targets _ _ _ _ _ Hpass _ _ _ _ Hsplit eq_refl) as (_ & Hd & Hafter & _).
  split; [exact Hd|]. split; [|exact Hafter].
  intros node Hin. apply list_elem_of_In in Hin.
  apply (elem_of_prefix _ _ _ Hin), list_elem_of_In, filter_In in Hd as [Hitem Hstale].
  unfold stale in Hstale. apply andb_true_iff in Hstale as [Hb Ha].
  by apply negb_true_iff in Ha.
Qed.


Lemma provisioning_after (lookups rest : list Call) (a b c : Call) :
  Forall (fun c => isLookup c = true) lookups ->
  isProvisioning a = false -> isProvisioning b = false -> isProvisioning c = true ->
  In c (lookups ++ [a; b] ++ rest) -> In c rest.
Proof.
  intros Hlk Ha Hb Hc Hin. member_cases Hin; try congruence.
  rewrite Forall_forall in Hlk. apply list_elem_of_In, Hlk in Hin. by destruct c.
Qed.

(** No instance is configured or deconfigured before the nodes were listed
    and the signer was created from the private key secret of the watched
    namespace, both with success. *)
Theorem provisioning_follows_listing_and_signer
    (r : ConfigMapReconciler) (cm : core.ConfigMap) (s : State) (c : Call) :
  In c (passLog r cm s) -> isProvisioning c = true ->
  exists lookups nodes rest,
    passLog r cm s
    = lookups ++ CallList (inl nodes)
      :: CallSignerCreate {| kubeTypes.Namespace := watchNamespace r;
                             kubeTypes.Name := PrivateKeySecret |} None :: rest /\
    Forall (fun c => isLookup c = true) lookups /\ In c rest.
Proof.
  intros Hin Hc.
  destruct (pass_of_log r cm s) as (_ & ohosts & Hpass & _).
  pose proof Hin as (k1 & k2 & Hsplit)%in_split.
  destruct Hpass;
    try (exfalso; eapply (no_split isProvisioning); [|exact Hc|exact Hsplit]; none_of).
  - eexists lookups, nodes, _. split; [reflexivity|]. split; [done|].
    eapply provisioning_after; [exact H| | |exact Hc|exact Hin]; reflexivity.
  - eexists lookups, _, _. split; [reflexivity|]. split; [done|].
    eapply provisioning_after; [exact H| | |exact Hc|exact Hin]; reflexivity.
  - eexists lookups, nodes, _. split; [reflexivity|]. split; [done|].
    eapply provisioning_after; [exact H| | |exact Hc|exact Hin]; reflexivity.
Qed.

Lemma app_cons_shift {A} (l k : list A) (a : A) : l ++ a :: k = (l ++ [a]) ++ k.
Proof. by rewrite <- app_assoc. Qed.

(** When the listing of the nodes fails, the pass returns that error,
    wrapped, and has called nothing but the resolver. *)
Theorem listing_failure_ends_pass
    (r : ConfigMapReconciler) (cm : core.ConfigMap) (s : State)
    (l1 l2 : list Call) (err : error) :
  passLog r cm s = l1 ++ CallList (inr err) :: l2 ->
  result (reconcileNodes r cm s) = inr (Some (Wrap err "error listing nodes")) /\
  l2 = [] /\ Forall (fun c => isLookup c = true) l1.
Proof.
  intros Hsplit.
  destruct (pass_of_log r cm s) as (_ & ohosts & Hpass & _).
  destruct Hpass;
    try (exfalso; eapply (no_split failedListing); [| |exact Hsplit]; [none_of|done]).
  cut_at failedListing Hsplit Hl. injection Hl as ->. by subst.
Qed.

(** When the signer cannot be created, the pass returns that error, wrapped;
    the signer is asked for after the nodes were listed, and nothing is
    called after it: no instance is configured or deconfigured. *)
Theorem signer_failure_ends_pass
    (r : ConfigMapReconciler) (cm : core.ConfigMap) (s : State)
    (l1 l2 : list Call) (key : kubeTypes.NamespacedName) (err : error) :
  passLog r cm s = l1 ++ CallSignerCreate key (Some err) :: l2 ->
  result (reconcileNodes r cm s)
  = inr (Some (Wrapf err "unable to create signer from private key secret")) /\
  key = {| kubeTypes.Namespace := watchNamespace r; kubeTypes.Name := PrivateKeySecret |} /\
  l2 = [] /\
  Forall (fun c => isProvisioning c = false) (passLog r cm s) /\
  exists lookups nodes,
    l1 = lookups ++ [CallList (inl nodes)] /\ Forall (fun c => isLookup c = true) lookups.
Proof.
  intros Hsplit.
  destruct (pass_of_log r cm s) as (_ & ohosts & Hpass & _).
  destruct Hpass;
    try (exfalso; eapply (no_split failedSigner); [| |exact Hsplit]; [none_of|done]).
  assert (Hnone : Forall (fun c => isProvisioning c = false)
                    (lookups ++ [CallList (inl nodes);
                                 CallSignerCreate (privateKey r) (Some err0)]))
    by none_of.
  rewrite (app_cons_shift lookups) in Hsplit. cut_at failedSigner Hsplit Hl.
  injection Hl as -> ->. subst l1 l2. repeat split; try done.
  by exists lookups, nodes.
Qed.

End PassProperties.

Section PassResults.

Context `{N : Net} {W : Type} `{O : Operator W}.

(** Prometheus is configured last, and only after every host that needed it
    was configured and every stale node deconfigured, all with success; what
    it returns decides what the pass returns. *)
Theorem prometheus_is_configured_last
    (r : ConfigMapReconciler) (cm : core.ConfigMap) (s : State)
    (l1 l2 : list Call) (pres : option error) :
  passLog r cm s = l1 ++ CallPrometheusConfigure pres :: l2 ->
  l2 = [] /\
  result (reconcileNodes r cm s)
  = inr ((fun err => Wrap err "unable to configure Prometheus") <$> pres) /\
  Forall (fun c => failedConfigure c = false) l1 /\
  Forall (fun c => failedDeconfigure c = false) l1 /\
  exists hosts s1 nodes lookups,
    parseHosts (core.Data cm) s = Done (hosts, None) s1 /\
    Forall (fun c => isLookup c = true) lookups /\
    l1 = lookups
         ++ [CallList (inl nodes);
             CallSignerCreate {| kubeTypes.Namespace := watchNamespace r;
                                 kubeTypes.Name := PrivateKeySecret |} None]
         ++ map configured (List.filter (needsConfigure nodes) hosts)
         ++ map deconfigured (List.filter (stale hosts) (core.Items nodes)).
Proof.
  intros Hsplit.
  destruct (pass_of_log r cm s) as (_ & ohosts & Hpass & Hparse).
  destruct Hpass;
    try (exfalso; eapply (no_split isPrometheus); [| |exact Hsplit]; [none_of|done]).
  destruct (Hparse _ eq_refl) as [s1 Hp].
  rewrite !app_assoc in Hsplit. cut_at isPrometheus Hsplit Hl.
  injection Hl as ->. subst l1 l2. rewrite <- !app_assoc.
  split; [done|]. split; [done|]. split; [none_of|]. split; [none_of|].
  by exists hosts, s1, nodes, lookups.
Qed.

(** A pass that returns no error either had nothing to do (no host, no node
    whose BYOH annotation is "true": its only call is the listing) or has
    run to its end: after the listing and the signer it has configured every
    host that needed it, then deconfigured every stale node, then configured
    Prometheus, all with success and in this order. *)
Theorem successful_pass_log
    (r : ConfigMapReconciler) (cm : core.ConfigMap) (s : State) :
  result (reconcileNodes r cm s) = inr None ->
  exists hosts s1 nodes,
    parseHosts (core.Data cm) s = Done (hosts, None) s1 /\
    ((hosts = [] /\ List.filter isBYOH (core.Items nodes) = [] /\
      passLog r cm s = [CallList (inl nodes)]) \/
     (exists lookups,
        Forall (fun c => isLookup c = true) lookups /\
        passLog r cm s
        = lookups
          ++ [CallList (inl nodes);
              CallSignerCreate {| kubeTypes.Namespace := watchNamespace r;
                                  kubeTypes.Name := PrivateKeySecret |} None]
          ++ map configured (List.filter (needsConfigure nodes) hosts)
          ++ map deconfigured (List.filter (stale hosts) (core.Items nodes))
          ++ [CallPrometheusConfigure None])).
Proof.
  intros Hres.
  destruct (pass_of_log r cm s) as (_ & ohosts & Hpass & Hparse).
  rewrite Hres in Hpass.
  remember (passLog r cm s) as delta eqn:Hdelta. clear Hdelta.
  remember (inr None : Panic + option error) as res eqn:Hr.
  destruct Hpass; try discriminate Hr.
  - destruct (Hparse _ eq_refl) as [s1 Hp]. exists [], s1, nodes. split; [done|]. by left.
  - destruct (Hparse _ eq_refl) as [s1 Hp]. destruct res; [discriminate Hr|].
    exists hosts, s1, nodes. split; [done|]. right. by exists lookups.
Qed.

(** Once the hosts are parsed, [reconcileNodes] returns. *)
Lemma reconcileNodes_returns (r : ConfigMapReconciler) (cm : core.ConfigMap)
    (s s1 : State) (hosts : list instances.InstanceInfo) (oerr : option error) :
  parseHosts (core.Data cm) s = Done (hosts, oerr) s1 ->
  exists res s', reconcileNodes r cm s = Done res s'.
Proof.
  intros Hp. destruct oerr as [err|].
  { erewrite reconcileNodes_parse_error by exact Hp. by eexists _, _. }
  unfold reconcileNodes. unfold bind at 1. rewrite Hp.
  unfold bind at 1, do_List. rewrite invoke_eq.
  destruct (client_List (world s1)) as [[nodes|err] w2]; cbn [fst snd];
    [|by eexists _, _].
  destruct ((length hosts =? 0) && _); [by eexists _, _|].
  unfold bind at 1, do_signer_Create. cbn [world signer calls].
  destruct (signer_Create _ w2) as [[sg [err|]] w3]; [by eexists _, _|].
  unfold bind at 1.
  match goal with
  | |- context [reconcileNodes_hosts cm hosts nodes ?st] =>
      destruct (reconcileNodes_hosts_run cm nodes hosts st) as (res & s4 & Hrun & _ & _)
  end.
  rewrite Hrun. destruct res as [e|]; [by eexists _, _|].
  unfold bind at 1, deconfigureInstances.
  destruct (deconfigureInstances_range_run hosts (core.Items nodes) s4)
    as (res & s5 & Hrun5 & _ & _).
  rewrite Hrun5. destruct res as [e|]; [by eexists _, _|].
  unfold bind at 1, do_prometheus_Configure. rewrite invoke_eq.
  destruct (prometheusNodeConfig_Configure (world s5)) as [[perr|] w6]; by eexists _, _.
Qed.

(** [reconcileNodes] panics only when [parseHosts] does: with an index out
    of range, on an entry of the record whose value is the bare word
    "username"; it has then called nothing but the resolver. *)
Theorem reconcileNodes_panics_only_on_bare_username
    (r : ConfigMapReconciler) (cm : core.ConfigMap) (s : State) (p : Panic) :
  result (reconcileNodes r cm s) = inl p ->
  p = IndexOutOfRange 1 1 /\
  (exists a, core.Data cm !! a = Some "username") /\
  Forall (fun c => isLookup c = true) (passLog r cm s).
Proof.
  intros Hres. split; [|split].
  - destruct (parseHosts (core.Data cm) s) as [[hosts oerr] s1|p' s1] eqn:Hp.
    + destruct (reconcileNodes_returns r _ _ _ _ _ Hp) as (res & s' & Hrun).
      rewrite Hrun in Hres. discriminate Hres.
    + unfold reconcileNodes, bind in Hres. rewrite Hp in Hres. injection Hres as <-.
      unfold parseHosts in Hp.
      by apply parseHosts_range_walk in Hp as (lk & _ & before & a & after & _ & _ & _ & ->).
  - destruct (parseHosts (core.Data cm) s) as [[hosts oerr] s1|p' s1] eqn:Hp.
    + destruct (reconcileNodes_returns r _ _ _ _ _ Hp) as (res & s' & Hrun).
      rewrite Hrun in Hres. discriminate Hres.
    + unfold parseHosts in Hp.
      apply parseHosts_range_walk in Hp as (lk & _ & before & a & after & Hwalk & _).
      exists a. apply elem_of_mapRange with (w := world s). rewrite Hwalk.
      apply list_elem_of_In, in_app_iff. right. by left.
  - destruct (pass_of_log r cm s) as (_ & ohosts & Hpass & _).
    rewrite Hres in Hpass.
    remember (passLog r cm s) as delta eqn:Hdelta. clear Hdelta.
    remember (inl p : Panic + option error) as res eqn:Hr.
    by destruct Hpass; try discriminate Hr.
Qed.

End PassResults.

(** ** Further properties: the ConfigMap itself *)

Section Bootstrap.

Context `{N : Net} {W : Type} `{O : Operator W}.

(** The runs of [ensure], by the calls they make. *)
Lemma ensure_cases (key : kubeTypes.NamespacedName) (s : State) :
  let obj := withIdentity core.emptyConfigMap (kubeTypes.Namespace key) (kubeTypes.Name key) in
  exists ocm oerr s' log,
    ensure key s = Done (ocm, oerr) s' /\ calls s' = calls s ++ log /\
    signer s' = signer s /\
    ((exists cm, log = [CallGet key (inl cm)] /\ ocm = Some cm /\ oerr = None) \/
     (exists err, IsNotFound err = false /\ log = [CallGet key (inr err)] /\
                  ocm = Some core.emptyConfigMap /\ oerr = Some err) \/
     (exists err cerr, IsNotFound err = true /\
                       log = [CallGet key (inr err); CallCreate obj (Some cerr)] /\
                       ocm = None /\ oerr = Some cerr) \/
     (exists err again, IsNotFound err = true /\
                        log = [CallGet key (inr err); CallCreate obj None;
                               CallLogInfo "Created" "ConfigMap" key; CallGet key again] /\
                        match again with
                        | inl cm => ocm = Some cm /\ oerr = None
                        | inr gerr => ocm = None /\ oerr = Some gerr
                        end)).
Proof.
  intros obj. unfold ensure, bind, do_Get. rewrite invoke_eq.
  destruct (client_Get key (world s)) as [[cm|err] w1]; cbn.
  { eexists _, _, _, _. split; [reflexivity|]. split; [reflexivity|]. split; [done|].
    left. by exists cm. }
  destruct (IsNotFound err) eqn:Hnf.
  2:{ eexists _, _, _, _. split; [reflexivity|]. split; [reflexivity|]. split; [done|].
      right. left. by exists err. }
  unfold do_Create. rewrite invoke_eq. cbn. fold obj.
  destruct (client_Create obj w1) as [[cerr|] w2]; cbn.
  { eexists _, _, _, [_; _]. split; [reflexivity|]. cbn. rewrite <- app_assoc.
    split; [reflexivity|]. split; [done|]. right. right. left. by exists err, cerr. }
  rewrite invoke_eq. cbn.
  destruct (client_Get key w2) as [again w3]. cbn.
  exists (match again with inl cm => Some cm | inr _ => None end),
         (match again with inl _ => None | inr gerr => Some gerr end),
         {| world := w3; signer := signer s;
            calls := (((calls s ++ [CallGet key (inr err)]) ++ [CallCreate obj None])
                      ++ [CallLogInfo "Created" "ConfigMap" key]) ++ [CallGet key again] |},
         [CallGet key (inr err); CallCreate obj None;
          CallLogInfo "Created" "ConfigMap" key; CallGet key again].
  split; [by destruct again|]. cbn. rewrite <- !app_assoc.
  split; [reflexivity|]. split; [done|]. right. right. right.
  exists err, again. split; [done|]. split; [done|]. by destruct again.
Qed.

Lemma ensureLog_eq (key : kubeTypes.NamespacedName) (s s' : State) out (log : list Call) :
  ensure key s = Done out s' -> calls s' = calls s ++ log -> ensureLog key s = log.
Proof. intros Hrun Hcalls. unfold ensureLog. rewrite Hrun. cbn. rewrite Hcalls. apply drop_app_length. Qed.

(** [ensure] never returns a nil ConfigMap without an error; it makes at
    most four calls, none of them through the typed client; and it creates
    at most the empty ConfigMap of the name and namespace asked for, right
    after a Get that failed with a not-found error. *)
Theorem ensure_calls (key : kubeTypes.NamespacedName) (s : State) :
  (forall ocm, result (ensure key s) = inr (ocm, None) -> is_Some ocm) /\
  length (ensureLog key s) <= 4 /\
  Forall (fun c => isTypedClient c = false) (ensureLog key s) /\
  (forall obj cres,
     In (CallCreate obj cres) (ensureLog key s) ->
     obj = withIdentity core.emptyConfigMap (kubeTypes.Namespace key) (kubeTypes.Name key) /\
     exists err rest,
       IsNotFound err = true /\
       ensureLog key s = CallGet key (inr err) :: CallCreate obj cres :: rest /\
       Forall (fun c => isCreate c = false) rest).
Proof.
  destruct (ensure_cases key s) as (ocm & oerr & s' & log & Hrun & Hcalls & _ & Hcases).
  rewrite (ensureLog_eq _ _ _ _ _ Hrun Hcalls). rewrite Hrun. cbn [result].
  destruct Hcases as [(cm & -> & -> & ->)|[(err & Hnf & -> & -> & ->)
                     |[(err & cerr & Hnf & -> & -> & ->)|(err & again & Hnf & -> & Hagain)]]].
  - split; [by intros ? [= <-]|]. split; [cbn; lia|]. split; [by repeat constructor|].
    by intros obj cres [[=]|[]].
  - split; [by intros ? [=]|]. split; [cbn; lia|]. split; [by repeat constructor|].
    by intros obj cres [[=]|[]].
  - split; [by intros ? [=]|]. split; [cbn; lia|]. split; [by repeat constructor|].
    intros obj cres [[=]|[[= <- <-]|[]]]. split; [done|]. by exists err, [].
  - split.
    { intros ? [= <- Hn]. destruct again as [cm|gerr]; destruct Hagain as [-> ->]; [done|].
      discriminate Hn. }
    split; [cbn; lia|]. split; [by repeat constructor|].
    intros obj cres [[=]|[[= <- <-]|[[=]|[[=]|[]]]]]. split; [done|].
    eexists err, _. split; [done|]. split; [done|]. by repeat constructor.
Qed.

(** The runs of [EnsureWindowsInstancesConfigMap], by the calls they make. *)
Lemma startup_cases (cfg : option RestConfig) (namespace : string) (s : State) :
  let obj := withIdentity core.emptyConfigMap namespace InstanceConfigMap in
  exists oerr s' log,
    EnsureWindowsInstancesConfigMap cfg namespace s = Done oerr s' /\
    calls s' = calls s ++ log /\ signer s' = signer s /\
    ((cfg = None /\ log = [] /\ oerr = Some (New "config should not be nil")) \/
     (exists c err, cfg = Some c /\ kubernetes_NewForConfig c = Some err /\
                    log = [CallNewForConfig (Some err)] /\
                    oerr = Some (Wrap err "error creating config client")) \/
     (exists cm, log = [CallNewForConfig None;
                        CallTypedGet namespace InstanceConfigMap (inl cm)] /\
                 oerr = None) \/
     (exists err, IsNotFound err = false /\
                  log = [CallNewForConfig None;
                         CallTypedGet namespace InstanceConfigMap (inr err)] /\
                  oerr = Some err) \/
     (exists err created, IsNotFound err = true /\
        log = [CallNewForConfig None;
               CallTypedGet namespace InstanceConfigMap (inr err);
               CallTypedCreate namespace obj created]
              ++ match created with
                 | inr _ => []
                 | inl _ => [CallLogInfo "Created" "ConfigMap"
                               {| kubeTypes.Namespace := namespace;
                                  kubeTypes.Name := InstanceConfigMap |}]
                 end /\
        oerr = match created with inr cerr => Some cerr | inl _ => None end)).
Proof.
  intros obj. unfold EnsureWindowsInstancesConfigMap.
  destruct cfg as [c|].
  2:{ exists (Some (New "config should not be nil")), s, []. rewrite app_nil_r.
      repeat split; try done. by left. }
  unfold bind, do_NewForConfig.
  destruct (kubernetes_NewForConfig c) as [err|] eqn:Hnew.
  { eexists _, _, [_]. split; [reflexivity|]. split; [reflexivity|]. split; [done|].
    right. left. by exists c, err. }
  unfold do_TypedGet. rewrite invoke_eq. cbn.
  destruct (typed_Get namespace InstanceConfigMap (world s)) as [[cm|err] w1]; cbn.
  { eexists _, _, [_; _]. split; [reflexivity|]. cbn. rewrite <- app_assoc.
    split; [reflexivity|]. split; [done|]. right. right. left. by exists cm. }
  destruct (IsNotFound err) eqn:Hnf.
  2:{ eexists _, _, [_; _]. split; [reflexivity|]. cbn. rewrite <- app_assoc.
      split; [reflexivity|]. split; [done|]. right. right. right. left. by exists err. }
  unfold do_TypedCreate. rewrite invoke_eq. cbn. fold obj.
  destruct (typed_Create namespace obj w1) as [[cm|cerr] w2]; cbn.
  - eexists _, _, [_; _; _; _]. split; [reflexivity|]. cbn. rewrite <- !app_assoc.
    split; [reflexivity|]. split; [done|]. right. right. right. right.
    by exists err, (inl cm).
  - eexists _, _, [_; _; _]. split; [reflexivity|]. cbn. rewrite <- !app_assoc.
    split; [reflexivity|]. split; [done|]. right. right. right. right.
    by exists err, (inr cerr).
Qed.

(** At startup the ConfigMap is ensured through the typed client alone: the
    cached client is never called and the signer is left alone; when the
    clientset cannot be built, its error is returned, wrapped, and the API
    server is not called; and the only object ever created is the empty
    [windows-instances] ConfigMap of the given namespace, after a Get that
    failed with a not-found error. *)
Theorem startup_uses_typed_client_only
    (cfg : option RestConfig) (namespace : string) (s : State) :
  Forall (fun c => isCachedClient c = false) (startupLog cfg namespace s) /\
  signer (final (EnsureWindowsInstancesConfigMap cfg namespace s)) = signer s /\
  (forall c err,
     cfg = Some c -> kubernetes_NewForConfig c = Some err ->
     result (EnsureWindowsInstancesConfigMap cfg namespace s)
     = inr (Some (Wrap err "error creating config client")) /\
     startupLog cfg namespace s = [CallNewForConfig (Some err)]) /\
  (forall ns obj cres,
     In (CallTypedCreate ns obj cres) (startupLog cfg namespace s) ->
     ns = namespace /\
     obj = withIdentity core.emptyConfigMap namespace InstanceConfigMap /\
     exists err, IsNotFound err = true /\
                 In (CallTypedGet namespace InstanceConfigMap (inr err))
                    (startupLog cfg namespace s)).
Proof.
  destruct (startup_cases cfg namespace s) as (oerr & s' & log & Hrun & Hcalls & Hsig & Hcases).
  assert (Hlog : startupLog cfg namespace s = log).
  { unfold startupLog. rewrite Hrun. cbn. rewrite Hcalls. apply drop_app_length. }
  rewrite Hlog, Hrun. cbn [final result].
  destruct Hcases as [(-> & -> & ->)|[(c & err & -> & Hnew & -> & ->)
                     |[(cm & -> & ->)|[(err & Hnf & -> & ->)|(err & created & Hnf & -> & ->)]]]].
  - split; [constructor|]. split; [done|]. split; [by intros ? ? [=]|]. by intros ? ? ? [].
  - split; [by repeat constructor|]. split; [done|]. split.
    + intros c' err' [= <-] Hnew'. rewrite Hnew in Hnew'. by injection Hnew' as <-.
    + by intros ? ? ? [[=]|[]].
  - split; [by repeat constructor|]. split; [done|]. split.
    + intros c err -> Hnew. exfalso.
      unfold EnsureWindowsInstancesConfigMap, bind, do_NewForConfig in Hrun.
      rewrite Hnew in Hrun. injection Hrun as _ Hs. rewrite <- Hs in Hcalls. cbn in Hcalls.
      apply app_inv_head in Hcalls. discriminate Hcalls.
    + by intros ? ? ? [[=]|[[=]|[]]].
  - split; [by repeat constructor|]. split; [done|]. split.
    + intros c err' -> Hnew. exfalso.
      unfold EnsureWindowsInstancesConfigMap, bind, do_NewForConfig in Hrun.
      rewrite Hnew in Hrun. injection Hrun as _ Hs. rewrite <- Hs in Hcalls. cbn in Hcalls.
      apply app_inv_head in Hcalls. discriminate Hcalls.
    + by intros ? ? ? [[=]|[[=]|[]]].
  - split; [by destruct created; repeat constructor|]. split; [done|]. split.
    + intros c err' -> Hnew. exfalso.
      unfold EnsureWindowsInstancesConfigMap, bind, do_NewForConfig in Hrun.
      rewrite Hnew in Hrun. injection Hrun as _ Hs. rewrite <- Hs in Hcalls. cbn in Hcalls.
      apply app_inv_head in Hcalls. by destruct created.
    + intros ns obj cres Hin. cbn in Hin.
      destruct Hin as [[=]|[[=]|[[= <- <- <-]|Hin]]].
      * split; [done|]. split; [done|]. exists err. split; [done|]. right. by left.
      * destruct created; [destruct Hin as [[=]|[]]|destruct Hin].
Qed.

End Bootstrap.

(** ** Further properties: [Reconcile] *)

Section Reconciling.

Context `{N : Net} {W : Type} `{O : Operator W}.

Lemma parseHosts_empty (s : State) : parseHosts ∅ s = Done ([], None) s.
Proof.
  unfold parseHosts. pose proof (mapRange_perm ∅ (world s)) as Hperm.
  rewrite map_to_list_empty in Hperm. apply Permutation_nil_r in Hperm.
  by rewrite Hperm.
Qed.

Lemma stale_no_hosts (items : list core.Node) :
  List.filter (stale []) items = List.filter annotatedBYOH items.
Proof.
  apply List.filter_ext. intros node. unfold stale, annotatedBYOH. cbn. apply andb_true_r.
Qed.

Lemma existsb_filter_nil {A} (f : A -> bool) (l : list A) :
  existsb f l = negb (length (List.filter f l) =? 0).
Proof.
  induction l as [|x l IH]; [done|]. cbn. destruct (f x); [done|]. exact IH.
Qed.

(** With an empty record, a pass that returns no error has deconfigured
    every node that carries the BYOH annotation, if some node has it with
    the value "true", and has done nothing but list the nodes if none
    has. *)
Lemma reconcileNodes_empty_record (r : ConfigMapReconciler) (cm : core.ConfigMap) (s : State) :
  core.Data cm = ∅ -> result (reconcileNodes r cm s) = inr None ->
  exists nodes,
    passLog r cm s
    = if existsb isBYOH (core.Items nodes)
      then [CallList (inl nodes); CallSignerCreate (privateKey r) None]
           ++ map deconfigured (List.filter annotatedBYOH (core.Items nodes))
           ++ [CallPrometheusConfigure None]
      else [CallList (inl nodes)].
Proof.
  intros Hdata Hres.
  cut (exists nodes,
         calls (final (reconcileNodes r cm s))
         = calls s ++ if existsb isBYOH (core.Items nodes)
                      then [CallList (inl nodes); CallSignerCreate (privateKey r) None]
                           ++ map deconfigured (List.filter annotatedBYOH (core.Items nodes))
                           ++ [CallPrometheusConfigure None]
                      else [CallList (inl nodes)]).
  { intros [nodes Hcalls]. exists nodes. unfold passLog. rewrite Hcalls.
    apply drop_app_length. }
  remember (reconcileNodes r cm s) as out eqn:Hout.
  unfold reconcileNodes in Hout. unfold bind at 1 in Hout.
  rewrite Hdata, parseHosts_empty in Hout.
  unfold bind at 1, do_List in Hout. rewrite invoke_eq in Hout.
  destruct (client_List (world s)) as [[nodes|err] w2]; cbn [fst snd] in Hout;
    [|by subst out].
  exists nodes. rewrite existsb_filter_nil. cbn [length Nat.eqb andb] in Hout.
  destruct (length (List.filter isBYOH (core.Items nodes)) =? 0); cbn [negb].
  { by subst out. }
  unfold bind at 1, do_signer_Create in Hout. cbn [world signer calls] in Hout.
  fold (privateKey r) in Hout.
  destruct (signer_Create (privateKey r) w2) as [[sg [err|]] w3]; [by subst out|].
  unfold bind at 1 in Hout. cbn [reconcileNodes_hosts] in Hout. unfold ret at 1 in Hout.
  unfold bind at 1, deconfigureInstances in Hout.
  match type of Hout with
  | context [deconfigureInstances_range [] (core.Items nodes) ?st] =>
      destruct (deconfigureInstances_range_run [] (core.Items nodes) st)
        as (res & s5 & Hrun5 & _ & Hres5)
  end.
  rewrite Hrun5 in Hout. destruct res as [e|]; [by subst out|]. cbn in Hres5.
  unfold bind at 1, do_prometheus_Configure in Hout. rewrite invoke_eq in Hout.
  destruct (prometheusNodeConfig_Configure (world s5)) as [[perr|] w6]; [by subst out|].
  subst out. cbn. by rewrite Hres5, stale_no_hosts, <- !app_assoc.
Qed.

(** [Reconcile] of a request whose ConfigMap is gone: when the ConfigMap is
    created empty and read back, a pass that returns no error has, after the
    four calls of [ensure], listed the nodes and deconfigured every node
    that carries the BYOH annotation, provided some node has it with the
    value "true"; if none has, it has only listed the nodes. *)
Theorem Reconcile_after_deletion
    (r : ConfigMapReconciler) (req : reconcile.Request) (s : State)
    (err : error) (w1 w2 w3 : W) (cm : core.ConfigMap) :
  let key := reconcile.NamespacedName req in
  let obj := withIdentity core.emptyConfigMap (kubeTypes.Namespace key) (kubeTypes.Name key) in
  client_Get key (world s) = (inr err, w1) -> IsNotFound err = true ->
  client_Create obj w1 = (None, w2) ->
  client_Get key w2 = (inl cm, w3) -> core.Data cm = ∅ ->
  result (Reconcile r req s) = inr None ->
  exists nodes,
    reconcileLog r req s
    = [CallGet key (inr err); CallCreate obj None;
       CallLogInfo "Created" "ConfigMap" key; CallGet key (inl cm)]
      ++ if existsb isBYOH (core.Items nodes)
         then [CallList (inl nodes);
               CallSignerCreate {| kubeTypes.Namespace := watchNamespace r;
                                   kubeTypes.Name := PrivateKeySecret |} None]
              ++ map deconfigured (List.filter annotatedBYOH (core.Items nodes))
              ++ [CallPrometheusConfigure None]
         else [CallList (inl nodes)].
Proof.
  intros key obj Hget Hnf Hcreate Hagain Hdata.
  set (s2 := {| world := w3; signer := signer s;
                calls := calls s ++ [CallGet key (inr err); CallCreate obj None;
                                     CallLogInfo "Created" "ConfigMap" key;
                                     CallGet key (inl cm)] |}).
  assert (Hensure : ensure key s = Done (Some cm, None) s2).
  { unfold ensure, bind, do_Get. rewrite invoke_eq. fold key. rewrite Hget. cbn.
    rewrite Hnf. unfold do_Create. rewrite invoke_eq. cbn. fold obj. rewrite Hcreate. cbn.
    rewrite invoke_eq. cbn. rewrite Hagain. cbn. unfold ret, s2.
    by rewrite <- !app_assoc. }
  unfold reconcileLog, Reconcile. unfold bind at 1 2. fold key. rewrite Hensure.
  intros Hres. destruct (reconcileNodes_empty_record r cm s2 Hdata Hres) as [nodes Hlog].
  exists nodes. unfold privateKey in Hlog. rewrite <- Hlog.
  destruct (pass_of_log r cm s2) as [Hcalls _]. rewrite Hcalls. unfold s2 at 1. cbn [calls].
  rewrite <- app_assoc. apply drop_app_length.
Qed.

(** [Reconcile] never dereferences a nil ConfigMap: it panics only when
    [parseHosts] does, with an index out of range. *)
Theorem Reconcile_panics_only_in_parseHosts
    (r : ConfigMapReconciler) (req : reconcile.Request) (s : State) (p : Panic) :
  result (Reconcile r req s) = inl p -> p = IndexOutOfRange 1 1.
Proof.
  unfold Reconcile. unfold bind at 1.
  destruct (ensure_cases (reconcile.NamespacedName req) s)
    as (ocm & oerr & s' & log & Hrun & _ & _ & Hcases).
  rewrite Hrun. destruct oerr as [err|]; [done|].
  assert (Hsome : is_Some ocm).
  { destruct Hcases as [(cm & _ & -> & _)|[(err & _ & _ & _ & [=])
                       |[(err & cerr & _ & _ & _ & [=])|(err & again & _ & _ & Hagain)]]];
      [done|]. destruct again; destruct Hagain as [-> Ho]; [done|discriminate Ho]. }
  destruct Hsome as [cm ->]. intros Hres.
  destruct (parseHosts (core.Data cm) s') as [[hosts oerr] s1|p' s1] eqn:Hp.
  - destruct (reconcileNodes_returns r _ _ _ _ _ Hp) as (res & s'' & Hrun').
    rewrite Hrun' in Hres. discriminate Hres.
  - unfold reconcileNodes, bind in Hres. rewrite Hp in Hres. injection Hres as <-.
    unfold parseHosts in Hp.
    by apply parseHosts_range_walk in Hp as (lk & _ & before & a & after & _ & _ & _ & ->).
Qed.

(** The request a Node event is mapped to names the very object the filter
    of the ConfigMap events lets through: mapping and filter agree on one
    namespace and one name. *)
Theorem mapped_request_passes_filter
    (r : ConfigMapReconciler) (node : client.Object) (req : reconcile.Request) :
  In req (mapToConfigMap r node) ->
  isValidConfigMap r (requested req) = true /\
  forall o, isValidConfigMap r o = true ->
            client.GetNamespace o = kubeTypes.Namespace (reconcile.NamespacedName req) /\
            client.GetName o = kubeTypes.Name (reconcile.NamespacedName req).
Proof.
  intros [<-|[]]. unfold isValidConfigMap. cbn. split.
  - by rewrite !String.eqb_refl.
  - intros o [Hns Hname]%andb_true_iff. by apply String.eqb_eq in Hns, Hname.
Qed.

End Reconciling.

(** ** The further properties on the small cluster *)

Lemma configured_hosts_are_a_prefix_witness :
  configureTargets
    (passLog (N := GoNet) Sim.reconciler (Sim.instancesConfigMap Scenario.threeHosts)
       (Sim.start Scenario.unreachable))
  `prefix_of` List.filter (needsConfigure {| core.Items := [] |})
                [Cases.host7; Cases.host5; Cases.host6].
Proof.
  assert (Hparse : parseHosts (N := GoNet)
                     (core.Data (Sim.instancesConfigMap Scenario.threeHosts))
                     (Sim.start Scenario.unreachable)
                   = Done ([Cases.host7; Cases.host5; Cases.host6], None)
                          (Sim.start Scenario.unreachable)) by reflexivity.
  assert (Hlog : passLog (N := GoNet) Sim.reconciler
                   (Sim.instancesConfigMap Scenario.threeHosts)
                   (Sim.start Scenario.unreachable)
                 = [] ++ CallList (inl {| core.Items := [] |})
                   :: [CallSignerCreate (privateKey Sim.reconciler) None;
                       configured Cases.host7;
                       CallConfigureInstance Cases.host5 (configureAnnotations Cases.host5)
                         (Some (New "unable to connect to the instance"));
                       setupFailure (Sim.instancesConfigMap Scenario.threeHosts) Cases.host5])
    by reflexivity.
  exact (proj1 (configured_hosts_are_a_prefix _ _ _ _ _ _ _ _ Hparse Hlog)).
Defined.

Lemma deconfigured_nodes_are_a_prefix_witness :
  deconfigureTargets
    (passLog (N := GoNet) Sim.reconciler (Sim.instancesConfigMap ∅) (Sim.start Scenario.stuck))
  `prefix_of` List.filter (stale []) [Scenario.m1; Scenario.m2].
Proof.
  assert (Hparse : parseHosts (N := GoNet) (core.Data (Sim.instancesConfigMap ∅))
                     (Sim.start Scenario.stuck)
                   = Done ([], None) (Sim.start Scenario.stuck)) by reflexivity.
  assert (Hlog : passLog (N := GoNet) Sim.reconciler (Sim.instancesConfigMap ∅)
                   (Sim.start Scenario.stuck)
                 = [] ++ CallList (inl {| core.Items := [Scenario.m1; Scenario.m2] |})
                   :: [CallSignerCreate (privateKey Sim.reconciler) None;
                       CallDeconfigureInstance Scenario.m1
                         (Some (New "unable to drain the node"))])
    by reflexivity.
  exact (proj1 (deconfigured_nodes_are_a_prefix _ _ _ _ _ _ _ _ Hparse Hlog)).
Defined.


Lemma provisioning_follows_listing_and_signer_witness :
  exists lookups nodes rest,
    passLog (N := GoNet) Sim.reconciler (Sim.instancesConfigMap Scenario.threeHosts)
      (Sim.start Scenario.unreachable)
    = lookups ++ CallList (inl nodes)
      :: CallSignerCreate {| kubeTypes.Namespace := watchNamespace Sim.reconciler;
                             kubeTypes.Name := PrivateKeySecret |} None :: rest /\
    Forall (fun c => isLookup c = true) lookups /\ In (configured Cases.host7) rest.
Proof.
  apply (provisioning_follows_listing_and_signer (N := GoNet)).
  - assert (Hlog : passLog (N := GoNet) Sim.reconciler
                     (Sim.instancesConfigMap Scenario.threeHosts)
                     (Sim.start Scenario.unreachable)
                   = [CallList (inl {| core.Items := [] |});
                      CallSignerCreate (privateKey Sim.reconciler) None;
                      configured Cases.host7;
                      CallConfigureInstance Cases.host5 (configureAnnotations Cases.host5)
                        (Some (New "unable to connect to the instance"));
                      setupFailure (Sim.instancesConfigMap Scenario.threeHosts) Cases.host5])
      by reflexivity.
    rewrite Hlog. right. right. by left.
  - reflexivity.
Defined.

Lemma listing_failure_ends_pass_witness :
  result (reconcileNodes (N := GoNet) (O := Cases.failing (Some (New "timeout")) None None)
            Sim.reconciler (Sim.instancesConfigMap Scenario.oneHost)
            (Cases.begin (Some (New "timeout")) None None (Sim.cluster [])))
  = inr (Some (Wrap (New "timeout") "error listing nodes")).
Proof.
  refine (proj1 (listing_failure_ends_pass (N := GoNet)
                   (O := Cases.failing (Some (New "timeout")) None None)
                   Sim.reconciler (Sim.instancesConfigMap Scenario.oneHost)
                   (Cases.begin (Some (New "timeout")) None None (Sim.cluster [])) [] [] (New "timeout") _)).
  reflexivity.
Defined.

Lemma signer_failure_ends_pass_witness :
  result (reconcileNodes (N := GoNet) (O := Cases.failing None (Some (New "no secret")) None)
            Sim.reconciler (Sim.instancesConfigMap Scenario.oneHost)
            (Cases.begin None (Some (New "no secret")) None (Sim.cluster [])))
  = inr (Some (Wrapf (New "no secret") "unable to create signer from private key secret")).
Proof.
  refine (proj1 (signer_failure_ends_pass (N := GoNet)
                   (O := Cases.failing None (Some (New "no secret")) None)
                   Sim.reconciler (Sim.instancesConfigMap Scenario.oneHost)
                   (Cases.begin None (Some (New "no secret")) None (Sim.cluster []))
                   [CallList (inl {| core.Items := [] |})] []
                   (privateKey (O := Cases.failing None (Some (New "no secret")) None)
                      Sim.reconciler)
                   (New "no secret") _)).
  reflexivity.
Defined.

Lemma prometheus_is_configured_last_witness :
  result (reconcileNodes (N := GoNet) (O := Cases.failing None None (Some (New "no endpoint")))
            Sim.reconciler (Sim.instancesConfigMap Scenario.oneHost)
            (Cases.begin None None (Some (New "no endpoint")) (Sim.cluster [Scenario.m1])))
  = inr (Some (Wrap (New "no endpoint") "unable to configure Prometheus")).
Proof.
  refine (proj1 (proj2 (prometheus_is_configured_last (N := GoNet)
                   (O := Cases.failing None None (Some (New "no endpoint")))
                   Sim.reconciler (Sim.instancesConfigMap Scenario.oneHost)
                   (Cases.begin None None (Some (New "no endpoint")) (Sim.cluster [Scenario.m1]))
                   [CallList (inl {| core.Items := [Scenario.m1] |});
                    CallSignerCreate
                      (privateKey (O := Cases.failing None None (Some (New "no endpoint")))
                         Sim.reconciler) None;
                    configured Cases.host5; deconfigured Scenario.m1] []
                   (Some (New "no endpoint")) _))).
  reflexivity.
Defined.

Lemma successful_pass_log_witness :
  exists hosts s1 nodes,
    parseHosts (N := GoNet) (core.Data (Sim.instancesConfigMap Scenario.oneHost))
      (Sim.start (Sim.cluster [Scenario.m1]))
    = Done (hosts, None) s1 /\
    ((hosts = [] /\ List.filter isBYOH (core.Items nodes) = [] /\
      passLog (N := GoNet) Sim.reconciler (Sim.instancesConfigMap Scenario.oneHost)
        (Sim.start (Sim.cluster [Scenario.m1])) = [CallList (inl nodes)]) \/
     (exists lookups,
        Forall (fun c => isLookup c = true) lookups /\
        passLog (N := GoNet) Sim.reconciler (Sim.instancesConfigMap Scenario.oneHost)
          (Sim.start (Sim.cluster [Scenario.m1]))
        = lookups
          ++ [CallList (inl nodes);
              CallSignerCreate {| kubeTypes.Namespace := watchNamespace Sim.reconciler;
                                  kubeTypes.Name := PrivateKeySecret |} None]
          ++ map configured (List.filter (needsConfigure nodes) hosts)
          ++ map deconfigured (List.filter (stale hosts) (core.Items nodes))
          ++ [CallPrometheusConfigure None])).
Proof.
  apply (successful_pass_log (N := GoNet)). reflexivity.
Defined.

Lemma reconcileNodes_panics_only_on_bare_username_witness :
  exists a, core.Data (Sim.instancesConfigMap Cases.bare) !! a = Some "username".
Proof.
  refine (proj1 (proj2 (reconcileNodes_panics_only_on_bare_username (N := GoNet)
                          Sim.reconciler (Sim.instancesConfigMap Cases.bare)
                          (Sim.start (Sim.cluster [])) (IndexOutOfRange 1 1) _))).
  reflexivity.
Defined.

Lemma ensure_calls_witness :
  result (ensure Scenario.trackingKey (Sim.start (Sim.cluster [])))
  = inr (Some (Sim.instancesConfigMap ∅), None) /\
  is_Some (Some (Sim.instancesConfigMap ∅)).
Proof.
  assert (Hres : result (ensure Scenario.trackingKey (Sim.start (Sim.cluster [])))
                 = inr (Some (Sim.instancesConfigMap ∅), None)) by reflexivity.
  exact (conj Hres
           (proj1 (ensure_calls Scenario.trackingKey (Sim.start (Sim.cluster []))) _ Hres)).
Defined.

Lemma startup_uses_typed_client_only_witness :
  "openshift-windows-machine-config-operator" = "openshift-windows-machine-config-operator" /\
  Sim.instancesConfigMap ∅
  = withIdentity core.emptyConfigMap "openshift-windows-machine-config-operator"
      InstanceConfigMap /\
  exists err,
    IsNotFound err = true /\
    In (CallTypedGet "openshift-windows-machine-config-operator" InstanceConfigMap (inr err))
       (startupLog (Some tt) "openshift-windows-machine-config-operator"
          (Sim.start (Sim.cluster []))).
Proof.
  refine (proj2 (proj2 (proj2 (startup_uses_typed_client_only (O := Sim.operator)
                   (Some tt) "openshift-windows-machine-config-operator"
                   (Sim.start (Sim.cluster []))))) _ _ (inl (Sim.instancesConfigMap ∅)) _).
  assert (Hlog : startupLog (O := Sim.operator) (Some tt)
                   "openshift-windows-machine-config-operator" (Sim.start (Sim.cluster []))
                 = [CallNewForConfig None;
                    CallTypedGet "openshift-windows-machine-config-operator" InstanceConfigMap
                      (inr (Sim.notFound InstanceConfigMap));
                    CallTypedCreate "openshift-windows-machine-config-operator"
                      (Sim.instancesConfigMap ∅) (inl (Sim.instancesConfigMap ∅));
                    CallLogInfo "Created" "ConfigMap" Scenario.trackingKey]) by reflexivity.
  rewrite Hlog. right. right. by left.
Defined.

Lemma Reconcile_after_deletion_witness :
  exists nodes,
    reconcileLog (N := GoNet) Sim.reconciler Cases.trackingRequest
      (Sim.start (Sim.cluster [Scenario.m1; Scenario.optedOut]))
    = [CallGet Scenario.trackingKey (inr (Sim.notFound InstanceConfigMap));
       CallCreate (Sim.instancesConfigMap ∅) None;
       CallLogInfo "Created" "ConfigMap" Scenario.trackingKey;
       CallGet Scenario.trackingKey (inl (Sim.instancesConfigMap ∅))]
      ++ if existsb isBYOH (core.Items nodes)
         then [CallList (inl nodes);
               CallSignerCreate {| kubeTypes.Namespace := watchNamespace Sim.reconciler;
                                   kubeTypes.Name := PrivateKeySecret |} None]
              ++ map deconfigured (List.filter annotatedBYOH (core.Items nodes))
              ++ [CallPrometheusConfigure None]
         else [CallList (inl nodes)].
Proof.
  apply (Reconcile_after_deletion (N := GoNet) Sim.reconciler Cases.trackingRequest
           (Sim.start (Sim.cluster [Scenario.m1; Scenario.optedOut]))
           (Sim.notFound InstanceConfigMap)
           (Sim.cluster [Scenario.m1; Scenario.optedOut])
           (Sim.setConfigMaps (Sim.cluster [Scenario.m1; Scenario.optedOut])
              [Sim.instancesConfigMap ∅])
           (Sim.setConfigMaps (Sim.cluster [Scenario.m1; Scenario.optedOut])
              [Sim.instancesConfigMap ∅])
           (Sim.instancesConfigMap ∅)); reflexivity.
Defined.

Lemma Reconcile_panics_only_in_parseHosts_witness :
  exists p,
    result (Reconcile (N := GoNet) Sim.reconciler Cases.trackingRequest
              (Sim.start Cases.withBareRecord)) = inl p /\
    p = IndexOutOfRange 1 1.
Proof.
  assert (Hres : result (Reconcile (N := GoNet) Sim.reconciler Cases.trackingRequest
                           (Sim.start Cases.withBareRecord))
                 = inl (IndexOutOfRange 1 1)) by reflexivity.
  exists (IndexOutOfRange 1 1).
  exact (conj Hres
           (Reconcile_panics_only_in_parseHosts (N := GoNet) Sim.reconciler
              Cases.trackingRequest (Sim.start Cases.withBareRecord) _ Hres)).
Defined.

Lemma mapped_request_passes_filter_witness :
  isValidConfigMap Sim.reconciler (requested Cases.trackingRequest) = true.
Proof.
  refine (proj1 (mapped_request_passes_filter Sim.reconciler
                   (core.NodeMeta Scenario.m1) Cases.trackingRequest _)).
  left. reflexivity.
Defined.
